(** * podio: handles over shared payloads, relation ranges, schema evolution

    A shallow embedding of
    - the generated handle classes [ExampleHit] and [ExampleReferencingType]
      (examples/datamodel/ExampleHit.cc, ExampleReferencingType.cc), and
    - the schema evolution registry declared in
      include/podio/SchemaEvolution.h.

    C++ objects live in explicit stores: a payload pointer is an address
    into a finite map and [nullptr] is [None].  A call either returns,
    raises an error, or has undefined behaviour (a null or dangling
    dereference, an iterator moved outside its vector). *)

From stdpp Require Import base option gmap list strings fin_maps pretty.
From Stdlib Require Import ZArith Lia PrimFloat.

Local Open Scope Z_scope.

(** ** Outcomes of a call *)

(** The error taxonomy of the specification. *)
Inductive Error :=
  | ConfigurationError
  | VersionConflictError
  | PriorityConflictError
  | LookupMiss
  | RelationRangeError
  | UnavailableHandleError.

Inductive outcome (A : Type) :=
  | Returns (a : A)
  | Raises (e : Error)
  | Undefined.
Arguments Returns {A} _.
Arguments Raises {A} _.
Arguments Undefined {A}.

#[global] Instance outcome_ret : MRet outcome := λ A a, Returns a.

#[global] Instance outcome_bind : MBind outcome := λ A B f m,
  match m with
  | Returns a => f a
  | Raises e => Raises e
  | Undefined => Undefined
  end.

(** Reading through a pointer: the pointee must be there. *)
Definition deref {A} (o : option A) : outcome A :=
  match o with
  | Some a => Returns a
  | None => Undefined
  end.

(** ** Object identity and the intrusive reference count *)

(** Addresses of heap-allocated objects. *)
Definition addr := positive.

(** [albers::ObjectID], returned by value from [getObjectID]. *)
Record ObjectID := mkObjectID { id_index : Z; id_collectionID : Z }.

(** The [ObjBase] part of every payload: its identity and its reference
    count. *)
Record ObjBase := mkObjBase { id : ObjectID; ref_counter : Z }.

(** A payload object ([ExampleHitObj], [ExampleReferencingTypeObj]): the
    [ObjBase] sub-object and the members declared by the datatype. *)
Record Obj (D : Type) := mkObj { base : ObjBase; members : D }.
Arguments mkObj {D} _ _.
Arguments base {D} _.
Arguments members {D} _.

Definition refs {D} (o : Obj D) : Z := ref_counter (base o).

Definition with_refs {D} (c : Z) (o : Obj D) : Obj D :=
  mkObj (mkObjBase (id (base o)) c) (members o).

(** A handle ([ExampleHit], [ExampleReferencingType]) has the single member
    [m_obj], a nullable pointer to a payload with members [D]. *)
Record Handle (D : Type) := mkHandle { m_obj : option addr }.
Arguments mkHandle {D} _.
Arguments m_obj {D} _.

Section Handle.
Context {D : Type}.

(** The payload heap. *)
Abbreviation Heap := (gmap addr (Obj D)).

(** Modelled from the spec: [ObjBase::acquire] (ObjBase.h is not part of
    the sources) increments the payload's reference count. *)
Definition acquire (p : addr) (hp : Heap) : outcome Heap :=
  o ← deref (hp !! p);
  Returns (<[p := with_refs (refs o + 1) o]> hp).

(** Modelled from the spec: [ObjBase::release] (ObjBase.h is not part of
    the sources) decrements the payload's reference count and destroys
    the payload when the count reaches zero. *)
Definition release (p : addr) (hp : Heap) : outcome Heap :=
  o ← deref (hp !! p);
  let c := refs o - 1 in
  if decide (c = 0) then Returns (delete p hp)
  else Returns (<[p := with_refs c o]> hp).

(** [T::T(const T& other) : m_obj(other.m_obj) { m_obj->acquire(); }] *)
Definition copy_ctor (other : Handle D) (hp : Heap)
  : outcome (Handle D * Heap) :=
  p ← deref (m_obj other);
  hp' ← acquire p hp;
  Returns (mkHandle (Some p), hp').

(** [T& T::operator=(const T& other)]:
    [if (m_obj != nullptr) m_obj->release(); m_obj = other.m_obj;].
    [this] is the handle assigned to; the new value of [*this] is
    returned.  [release] does not write [m_obj], so reading
    [other.m_obj] afterwards gives the same pointer also when [other]
    and [*this] are one object. *)
Definition operator_assign (this other : Handle D) (hp : Heap)
  : outcome (Handle D * Heap) :=
  hp' ← match m_obj this with
        | Some p => release p hp
        | None => Returns hp
        end;
  Returns (mkHandle (m_obj other), hp').

(** [T::T(TObj* obj) : m_obj(obj) { if (m_obj != nullptr) m_obj->acquire(); }] *)
Definition ptr_ctor (obj : option addr) (hp : Heap)
  : outcome (Handle D * Heap) :=
  hp' ← match obj with
        | Some p => acquire p hp
        | None => Returns hp
        end;
  Returns (mkHandle obj, hp').

(** [T::~T() { if (m_obj != nullptr) m_obj->release(); }] *)
Definition dtor (this : Handle D) (hp : Heap) : outcome Heap :=
  match m_obj this with
  | Some p => release p hp
  | None => Returns hp
  end.

(** [bool T::isAvailable() const] *)
Definition isAvailable (this : Handle D) : bool :=
  match m_obj this with
  | Some _ => true
  | None => false
  end.

(** [const albers::ObjectID T::getObjectID() const { return m_obj->id; }] *)
Definition getObjectID (this : Handle D) (hp : Heap) : outcome ObjectID :=
  p ← deref (m_obj this);
  o ← deref (hp !! p);
  Returns (id (base o)).

(** [new]: the address of the new object is not the address of any live
    object. *)
Definition alloc (hp : Heap) : addr := fresh (dom hp).

(** Modelled from the spec: the copy constructor of the payload class
    ([TObj(const TObj&)], declared in TObj.h which is not part of the
    sources) copies the datatype's members into a payload that no handle
    references yet; [new_id] is the identity it gives the new payload. *)
Definition Obj_copy (new_id : ObjectID) (o : Obj D) : Obj D :=
  mkObj (mkObjBase new_id 0) (members o).

(** [T T::clone() const]: [return {new TObj( *m_obj )};] *)
Definition clone (new_id : ObjectID) (this : Handle D) (hp : Heap)
  : outcome (Handle D * Heap) :=
  p ← deref (m_obj this);
  o ← deref (hp !! p);
  let q := alloc hp in
  ptr_ctor (Some q) (<[q := Obj_copy new_id o]> hp).

(** A write through the handle to the members of its payload, as in
    [m_obj->data.x = x] or [m_obj->data.Clusters_end++]. *)
Definition modify (f : D → D) (this : Handle D) (hp : Heap) : outcome Heap :=
  p ← deref (m_obj this);
  o ← deref (hp !! p);
  Returns (<[p := mkObj (base o) (f (members o))]> hp).

(** Every live payload has a positive reference count. *)
Definition counts_positive (hp : Heap) : Prop :=
  ∀ p o, hp !! p = Some o → 0 < refs o.
End Handle.

(** ** ExampleHit *)

(** The [double] fields of the datatypes are IEEE binary64 values. *)
Definition double := PrimFloat.float.

(** [ExampleHitData], the only datatype member of [ExampleHitObj]. *)
Record ExampleHitData := mkExampleHitData
  { x : double; y : double; z : double; energy : double }.

Definition ExampleHit := Handle ExampleHitData.

(** ** Iterators into a relation vector *)

(** A [std::vector<T>::const_iterator]: the vector it points into and its
    distance from that vector's [begin()]. *)
Record const_iterator := mkIter { it_vec : addr; it_pos : Z }.

#[global] Instance const_iterator_eq_dec : EqDecision const_iterator.
Proof. solve_decision. Defined.

(** [v->begin()] *)
Definition vec_begin (v : addr) : const_iterator := mkIter v 0.

(** [std::advance(it, n)] on a vector of [size] elements: the iterator
    moved to must lie between [begin()] and [end()], both included. *)
Definition advance (size : nat) (it : const_iterator) (n : Z)
  : outcome const_iterator :=
  let q := it_pos it + n in
  if decide (0 ≤ q ≤ Z.of_nat size) then Returns (mkIter (it_vec it) q)
  else Undefined.

(** [++it] *)
Definition incr (size : nat) (it : const_iterator) : outcome const_iterator :=
  advance size it 1.

(** [*it] *)
Definition star {E} (l : list E) (it : const_iterator) : outcome E :=
  if decide (0 ≤ it_pos it) then deref (l !! Z.to_nat (it_pos it))
  else Undefined.

(** The loop over a relation range of tests/write_dummy.cpp,
    [for (auto it = first, end = last; it != end; ++it) { ... *it ... }],
    collecting the elements it visits.  [None]: more than [fuel]
    iterations. *)
Fixpoint for_range {E} (fuel : nat) (l : list E) (it last : const_iterator)
  : option (outcome (list E)) :=
  if decide (it = last) then Some (Returns [])
  else match fuel with
       | O => None
       | S fuel' =>
           match star l it, incr (length l) it with
           | Returns e, Returns it' =>
               match for_range fuel' l it' last with
               | Some (Returns es) => Some (Returns (e :: es))
               | r => r
               end
           | Returns _, Raises err | Raises err, _ => Some (Raises err)
           | _, _ => Some Undefined
           end
       end.

(** ** ExampleReferencingType *)

(** [ExampleReferencingTypeData]: the two relation ranges of a record.  The
    struct is declared in ExampleReferencingTypeData.h, which is not part
    of the sources; its index fields are taken to be integers. *)
Record ExampleReferencingTypeData := mkExampleReferencingTypeData
  { data_Clusters_begin : Z; data_Clusters_end : Z;
    data_Refs_begin : Z; data_Refs_end : Z }.

(** The datatype members of [ExampleReferencingTypeObj]: [data] and the
    pointers to the two relation vectors. *)
Record ExampleReferencingTypeMembers := mkExampleReferencingTypeMembers
  { data : ExampleReferencingTypeData;
    m_Clusters : option addr;
    m_Refs : option addr }.

Definition ExampleReferencingType := Handle ExampleReferencingTypeMembers.

Section ExampleReferencingType.
(** [ExampleCluster], the handle class of the related clusters
    (ExampleCluster.cc is not part of the sources). *)
Context {ExampleCluster : Type}.

(** The objects a record refers to: the payloads and the relation
    vectors, each vector possibly pointed to by several payloads. *)
Record Store := mkStore
  { objs : gmap addr (Obj ExampleReferencingTypeMembers);
    vecs_Clusters : gmap addr (list ExampleCluster);
    vecs_Refs : gmap addr (list ExampleReferencingType) }.

(** [auto ret_value = m_obj->m_Clusters->begin();
     std::advance(ret_value, m_obj->data.Clusters_begin);
     return ret_value;] *)
Definition Clusters_begin (this : ExampleReferencingType) (st : Store)
  : outcome const_iterator :=
  p ← deref (m_obj this);
  o ← deref (objs st !! p);
  v ← deref (m_Clusters (members o));
  l ← deref (vecs_Clusters st !! v);
  advance (length l) (vec_begin v) (data_Clusters_begin (data (members o))).

(** [auto ret_value = m_obj->m_Clusters->begin();
     std::advance(ret_value, m_obj->data.Clusters_end-1);
     return ++ret_value;] *)
Definition Clusters_end (this : ExampleReferencingType) (st : Store)
  : outcome const_iterator :=
  p ← deref (m_obj this);
  o ← deref (objs st !! p);
  v ← deref (m_Clusters (members o));
  l ← deref (vecs_Clusters st !! v);
  ret_value ← advance (length l) (vec_begin v)
                (data_Clusters_end (data (members o)) - 1);
  incr (length l) ret_value.

(** [m_obj->data.Clusters_end++] *)
Definition Clusters_end_incr (m : ExampleReferencingTypeMembers)
  : ExampleReferencingTypeMembers :=
  let d := data m in
  mkExampleReferencingTypeMembers
    (mkExampleReferencingTypeData (data_Clusters_begin d)
       (data_Clusters_end d + 1) (data_Refs_begin d) (data_Refs_end d))
    (m_Clusters m) (m_Refs m).

(** [m_obj->m_Clusters->push_back(component); m_obj->data.Clusters_end++;]
    The copy of [component] stored in the vector is made by
    [ExampleCluster]'s copy constructor, which touches the cluster's
    payload only. *)
Definition addClusters (this : ExampleReferencingType)
    (component : ExampleCluster) (st : Store) : outcome Store :=
  p ← deref (m_obj this);
  o ← deref (objs st !! p);
  v ← deref (m_Clusters (members o));
  l ← deref (vecs_Clusters st !! v);
  let vecs' := <[v := l ++ [component]]> (vecs_Clusters st) in
  objs' ← modify Clusters_end_incr this (objs st);
  Returns (mkStore objs' vecs' (vecs_Refs st)).

(** As [Clusters_begin], on [m_Refs] and [data.Refs_begin]. *)
Definition Refs_begin (this : ExampleReferencingType) (st : Store)
  : outcome const_iterator :=
  p ← deref (m_obj this);
  o ← deref (objs st !! p);
  v ← deref (m_Refs (members o));
  l ← deref (vecs_Refs st !! v);
  advance (length l) (vec_begin v) (data_Refs_begin (data (members o))).

(** As [Clusters_end], on [m_Refs] and [data.Refs_end]. *)
Definition Refs_end (this : ExampleReferencingType) (st : Store)
  : outcome const_iterator :=
  p ← deref (m_obj this);
  o ← deref (objs st !! p);
  v ← deref (m_Refs (members o));
  l ← deref (vecs_Refs st !! v);
  ret_value ← advance (length l) (vec_begin v)
                (data_Refs_end (data (members o)) - 1);
  incr (length l) ret_value.

(** [m_obj->data.Refs_end++] *)
Definition Refs_end_incr (m : ExampleReferencingTypeMembers)
  : ExampleReferencingTypeMembers :=
  let d := data m in
  mkExampleReferencingTypeMembers
    (mkExampleReferencingTypeData (data_Clusters_begin d)
       (data_Clusters_end d) (data_Refs_begin d) (data_Refs_end d + 1))
    (m_Clusters m) (m_Refs m).

(** [m_obj->m_Refs->push_back(component); m_obj->data.Refs_end++;]
    [push_back] copy-constructs the stored handle from [component],
    which acquires the payload of [component]. *)
Definition addRefs (this component : ExampleReferencingType) (st : Store)
  : outcome Store :=
  p ← deref (m_obj this);
  o ← deref (objs st !! p);
  v ← deref (m_Refs (members o));
  l ← deref (vecs_Refs st !! v);
  '(stored, objs1) ← copy_ctor component (objs st);
  let vecs' := <[v := l ++ [stored]]> (vecs_Refs st) in
  objs2 ← modify Refs_end_incr this objs1;
  Returns (mkStore objs2 (vecs_Clusters st) vecs').

(** The related clusters of a record, read as the test programs read a
    relation: the loop from [Clusters_begin()] to [Clusters_end()] over
    the vector [*m_obj->m_Clusters]. *)
Definition Clusters (fuel : nat) (this : ExampleReferencingType) (st : Store)
  : option (outcome (list ExampleCluster)) :=
  match (first ← Clusters_begin this st;
         last ← Clusters_end this st;
         p ← deref (m_obj this);
         o ← deref (objs st !! p);
         v ← deref (m_Clusters (members o));
         l ← deref (vecs_Clusters st !! v);
         Returns (l, first, last)) with
  | Returns (l, first, last) => for_range fuel l first last
  | Raises err => Some (Raises err)
  | Undefined => Some Undefined
  end.
End ExampleReferencingType.
Arguments Store : clear implicits.

(** ** The schema evolution registry (include/podio/SchemaEvolution.h) *)

(** [using SchemaVersionT = uint32_t]; versions are compared and used as
    indices only. *)
Definition SchemaVersionT := N.

(** [enum class Priority { AutoGenerated = 0, UserDefined = 1 }] *)
Inductive Priority := AutoGenerated | UserDefined.

#[global] Instance Priority_eq_dec : EqDecision Priority.
Proof. solve_decision. Defined.

(** [struct MapIndex { SchemaVersionT currentVersion; size_t index; }] *)
Record MapIndex := mkMapIndex { currentVersion : SchemaVersionT; index : N }.

(** [constexpr static size_t NoEvolutionAvailable = -1u]: the [unsigned]
    value [-1u] converted to [size_t]. *)
Definition NoEvolutionAvailable : N := 4294967295.

Section SchemaEvolution.
(** [struct CollectionReadBuffers] is only declared in the header.
    [World] is everything else a registered function can read and
    change: allocated buffers, call counters. *)
Context {CollectionReadBuffers World : Type}.

(** [std::function<CollectionReadBuffers(CollectionReadBuffers,
    SchemaVersionT)>] *)
Definition EvolutionFuncT : Type :=
  CollectionReadBuffers → SchemaVersionT → World →
  outcome CollectionReadBuffers * World.

(** [using EvolFuncVersionMapT = std::vector<EvolutionFuncT>], indexed
    by the version the evolution starts from.  A slot is a [std::function]
    and nothing else: [None] is the empty [std::function] of a slot no
    function was registered for, and the registry keeps no record of the
    priority a function was registered with. *)
Definition EvolFuncVersionMapT := list (option EvolutionFuncT).

(** The two members of [class SchemaEvolution]. *)
Record SchemaEvolution := mkSchemaEvolution
  { m_versionMapIndices : gmap string MapIndex;
    m_evolutionFuncs : list EvolFuncVersionMapT }.

(** The function table of a type, if it has one. *)
Definition funcTable (reg : SchemaEvolution) (mi : MapIndex)
  : option EvolFuncVersionMapT :=
  if decide (index mi = NoEvolutionAvailable) then None
  else m_evolutionFuncs reg !! N.to_nat (index mi).

(** The function registered for [(collType, fromVersion)], if any. *)
Definition registered (reg : SchemaEvolution) (collType : string)
    (fromVersion : SchemaVersionT) : option EvolutionFuncT :=
  mi ← m_versionMapIndices reg !! collType;
  tbl ← funcTable reg mi;
  mjoin (tbl !! N.to_nat fromVersion).

(** Modelled from the spec: [SchemaEvolution::evolveBuffers]
    (SchemaEvolution.cc is not part of the sources).  Buffers already at
    the current version are returned as they are; otherwise the function
    registered for [(collType, fromVersion)] is called once; a lookup
    miss is an error. *)
Definition evolveBuffers (reg : SchemaEvolution)
    (oldBuffers : CollectionReadBuffers) (fromVersion : SchemaVersionT)
    (collType : string) (w : World) : outcome CollectionReadBuffers * World :=
  match m_versionMapIndices reg !! collType with
  | Some mi =>
      if decide (fromVersion = currentVersion mi) then (Returns oldBuffers, w)
      else match registered reg collType fromVersion with
           | Some evolutionFunc => evolutionFunc oldBuffers fromVersion w
           | None => (Raises LookupMiss, w)
           end
  | None => (Raises LookupMiss, w)
  end.

(** Modelled from the spec: storing [r] in the slot of [fromVersion] of a
    type's table (part of [registerEvolutionFunc] in SchemaEvolution.cc,
    which is not part of the sources); the vector is grown with empty
    slots when it is too short. *)
Definition setSlot (tbl : EvolFuncVersionMapT) (fromVersion : SchemaVersionT)
    (r : EvolutionFuncT) : EvolFuncVersionMapT :=
  let i := N.to_nat fromVersion in
  if decide (i < length tbl)%nat then <[i := Some r]> tbl
  else tbl ++ replicate (i - length tbl) None ++ [Some r].

(** Modelled from the spec: [SchemaEvolution::registerEvolutionFunc]
    (SchemaEvolution.cc is not part of the sources).  The current
    version of a type is fixed by its first registration.  The priority
    of the call is all the registry knows of priorities, a slot being a
    bare [std::function]: a [UserDefined] registration replaces whatever
    holds the slot, so it replaces an [AutoGenerated] function; an
    [AutoGenerated] registration is refused when the slot holds a
    function, so it never replaces a [UserDefined] one.  A refused
    registration leaves the registry as it was. *)
Definition registerEvolutionFunc
    (collType : string) (fromVersion currentVersion' : SchemaVersionT)
    (evolutionFunc : EvolutionFuncT) (priority : Priority)
    (reg : SchemaEvolution) : outcome unit * SchemaEvolution :=
  match m_versionMapIndices reg !! collType with
  | None =>
      let idx := N.of_nat (length (m_evolutionFuncs reg)) in
      (Returns (),
       mkSchemaEvolution
         (<[collType := mkMapIndex currentVersion' idx]>
            (m_versionMapIndices reg))
         (m_evolutionFuncs reg ++ [setSlot [] fromVersion evolutionFunc]))
  | Some mi =>
      if decide (currentVersion mi ≠ currentVersion') then
        (Raises VersionConflictError, reg)
      else if decide (index mi = NoEvolutionAvailable) then
        let idx := N.of_nat (length (m_evolutionFuncs reg)) in
        (Returns (),
         mkSchemaEvolution
           (<[collType := mkMapIndex currentVersion' idx]>
              (m_versionMapIndices reg))
           (m_evolutionFuncs reg ++ [setSlot [] fromVersion evolutionFunc]))
      else
        match m_evolutionFuncs reg !! N.to_nat (index mi) with
        | None => (Undefined, reg)
        | Some tbl =>
            match mjoin (tbl !! N.to_nat fromVersion), priority with
            | Some _, AutoGenerated => (Raises PriorityConflictError, reg)
            | _, _ =>
                (Returns (),
                 mkSchemaEvolution (m_versionMapIndices reg)
                   (<[N.to_nat (index mi) :=
                        setSlot tbl fromVersion evolutionFunc]>
                      (m_evolutionFuncs reg)))
            end
        end
  end.

(** A registration for [collType] with current version [cv] is
    well-formed on [reg]: the type, if known, has that current version
    and an index that is the tombstone or the position of a function
    table, and a new table would not get the tombstone as its index. *)
Definition accepts_type (reg : SchemaEvolution) (collType : string)
    (cv : SchemaVersionT) : Prop :=
  N.of_nat (length (m_evolutionFuncs reg)) ≠ NoEvolutionAvailable
  ∧ ∀ mi, m_versionMapIndices reg !! collType = Some mi →
      currentVersion mi = cv
      ∧ (index mi = NoEvolutionAvailable
         ∨ (N.to_nat (index mi) < length (m_evolutionFuncs reg))%nat).

(** [noOpSchemaEvolution]: "returns the buffers unchanged". *)
Definition noOpSchemaEvolution : EvolutionFuncT :=
  λ buffers _ w, (Returns buffers, w).
End SchemaEvolution.
Arguments EvolutionFuncT : clear implicits.
Arguments SchemaEvolution : clear implicits.

(** ** Concrete scenarios *)

Module Scenario.
Definition hitQ : Obj ExampleHitData :=
  mkObj (mkObjBase (mkObjectID 0 7) 1) (mkExampleHitData 1.5 0 (-2) 0.25)%float.
Definition hitP : Obj ExampleHitData :=
  mkObj (mkObjBase (mkObjectID 1 7) 1) (mkExampleHitData 3 4 5 0.5)%float.

(** Two hits, each referenced by one handle. *)
Definition hits : gmap addr (Obj ExampleHitData) :=
  {[ 1%positive := hitQ; 2%positive := hitP ]}.
Definition a : ExampleHit := mkHandle (Some 1%positive).
Definition b : ExampleHit := mkHandle (Some 2%positive).

(** Cluster handles; the cluster payloads are not part of the store. *)
Definition ExampleCluster := Handle unit.
Definition ca : ExampleCluster := mkHandle (Some 21%positive).
Definition cb : ExampleCluster := mkHandle (Some 22%positive).
Definition cc : ExampleCluster := mkHandle (Some 23%positive).

(** A record of the collection with the relation vectors at addresses 10
    and 11, with the given [Clusters] range and no [Refs]. *)
Definition record (i first last : Z) : Obj ExampleReferencingTypeMembers :=
  mkObj (mkObjBase (mkObjectID i 3) 1)
    (mkExampleReferencingTypeMembers
       (mkExampleReferencingTypeData first last 0 0)
       (Some 10%positive) (Some 11%positive)).

Definition r0 : ExampleReferencingType := mkHandle (Some 1%positive).
Definition r1 : ExampleReferencingType := mkHandle (Some 2%positive).

(** A record with relation vectors of its own, at [vc] and [vr], and
    nothing added to either relation. *)
Definition own_record (i : Z) (vc vr : addr)
  : Obj ExampleReferencingTypeMembers :=
  mkObj (mkObjBase (mkObjectID i 3) 1)
    (mkExampleReferencingTypeMembers
       (mkExampleReferencingTypeData 0 0 0 0) (Some vc) (Some vr)).

(** Two records, each with its own empty relation vectors. *)
Definition own_vectors : Store ExampleCluster :=
  mkStore {[ 1%positive := own_record 0 10%positive 11%positive;
             2%positive := own_record 1 12%positive 13%positive ]}
    {[ 10%positive := []; 12%positive := [] ]}
    {[ 11%positive := []; 13%positive := [] ]}.

(** Modelled from the spec: the collection class is not part of the
    sources.  Two records with the empty range [[0, 0)] whose payloads
    point to one empty relation vector, the layout the specification
    gives the records of one collection. *)
Definition one_vector : Store ExampleCluster :=
  mkStore {[ 1%positive := record 0 0 0; 2%positive := record 1 0 0 ]}
    {[ 10%positive := [] ]} {[ 11%positive := [] ]}.

(** [r0.addClusters(ca); r0.addClusters(cb); r1.addClusters(cc);] *)
Definition add_three (st : Store ExampleCluster)
  : outcome (Store ExampleCluster) :=
  s1 ← addClusters r0 ca st;
  s2 ← addClusters r0 cb s1;
  addClusters r1 cc s2.

(** A vector of one cluster; record [r0] stores the range [[1, 0)],
    record [r1] the range [[0, 5)]. *)
Definition bad_ranges : Store ExampleCluster :=
  mkStore {[ 1%positive := record 0 1 0; 2%positive := record 1 0 5 ]}
    {[ 10%positive := [ca] ]} {[ 11%positive := [] ]}.

(** Buffers are lists of numbers here, and the world is the number of
    calls of registered functions made so far. *)
Definition counting (tag : Z) : EvolutionFuncT (list Z) nat :=
  λ buffers _ calls, (Returns (tag :: buffers), S calls).

(** ["Track"] at current version 3, with a function for version 2 and
    none for version 1. *)
Definition track_registry : SchemaEvolution (list Z) nat :=
  snd (registerEvolutionFunc "Track" 2%N 3%N
         (counting 2) AutoGenerated (mkSchemaEvolution ∅ [])).

(** A vector of three clusters; record [r0] stores the range [[0, 2)],
    record [r1] the range [[2, 3)]. *)
Definition good_ranges : Store ExampleCluster :=
  mkStore {[ 1%positive := record 0 0 2; 2%positive := record 1 2 3 ]}
    {[ 10%positive := [ca; cb; cc] ]} {[ 11%positive := [] ]}.
End Scenario.

(** ** Constructors that allocate a payload *)

Section Constructors.
Context {D : Type}.

(** [T::T() : m_obj(new TObj()) { m_obj->acquire(); }].  [init] is the
    payload that [new TObj()] builds: the default constructor of the
    payload class is declared in TObj.h, which is not part of the
    sources. *)
Definition default_ctor (init : Obj D) (hp : gmap addr (Obj D))
  : outcome (Handle D * gmap addr (Obj D)) :=
  let q := alloc hp in
  hp' ← acquire q (<[q := init]> hp);
  Returns (mkHandle (Some q), hp').
End Constructors.

(** [ExampleHit::ExampleHit(double x, double y, double z, double energy)
      : m_obj(new ExampleHitObj())]:
    [m_obj->acquire(); m_obj->data.x = x; m_obj->data.y = y;
     m_obj->data.z = z; m_obj->data.energy = energy;] *)
Definition ExampleHit_ctor (init : Obj ExampleHitData)
    (x' y' z' energy' : double) (hp : gmap addr (Obj ExampleHitData))
  : outcome (ExampleHit * gmap addr (Obj ExampleHitData)) :=
  '(this, hp0) ← default_ctor init hp;
  hp1 ← modify (λ d, mkExampleHitData x' (y d) (z d) (energy d)) this hp0;
  hp2 ← modify (λ d, mkExampleHitData (x d) y' (z d) (energy d)) this hp1;
  hp3 ← modify (λ d, mkExampleHitData (x d) (y d) z' (energy d)) this hp2;
  hp4 ← modify (λ d, mkExampleHitData (x d) (y d) (z d) energy') this hp3;
  Returns (this, hp4).

(** One operation of the handle interface, as a step on the payload heap.
    A default-constructed payload starts with count 0, before the handle
    acquires it. *)
Inductive handle_step {D : Type}
  : gmap addr (Obj D) → gmap addr (Obj D) → Prop :=
  | step_default_ctor init h hp hp' :
      refs init = 0 →
      default_ctor init hp = Returns (h, hp') → handle_step hp hp'
  | step_copy_ctor other h hp hp' :
      copy_ctor other hp = Returns (h, hp') → handle_step hp hp'
  | step_operator_assign this other h hp hp' :
      operator_assign this other hp = Returns (h, hp') → handle_step hp hp'
  | step_ptr_ctor obj h hp hp' :
      ptr_ctor obj hp = Returns (h, hp') → handle_step hp hp'
  | step_clone new_id this h hp hp' :
      clone new_id this hp = Returns (h, hp') → handle_step hp hp'
  | step_dtor this hp hp' :
      dtor this hp = Returns hp' → handle_step hp hp'
  | step_modify f this hp hp' :
      modify f this hp = Returns hp' → handle_step hp hp'.

(** ** Reading the Refs relation *)

Section RefsView.
Context {ExampleCluster : Type}.

(** The related records of a record, read with the loop of
    tests/write_dummy.cpp from [Refs_begin()] to [Refs_end()] over the
    vector [*m_obj->m_Refs]. *)
Definition Refs (fuel : nat) (this : ExampleReferencingType)
    (st : Store ExampleCluster)
  : option (outcome (list ExampleReferencingType)) :=
  match (first ← Refs_begin this st;
         last ← Refs_end this st;
         p ← deref (m_obj this);
         o ← deref (objs st !! p);
         v ← deref (m_Refs (members o));
         l ← deref (vecs_Refs st !! v);
         Returns (l, first, last)) with
  | Returns (l, first, last) => for_range fuel l first last
  | Raises err => Some (Raises err)
  | Undefined => Some Undefined
  end.
End RefsView.

Module ScenarioX.
(** A collection in which record [r0] has read its two clusters and is
    the record extended last: its range [[0, 2)] ends at the end of the
    vector.  Record [r1] refers to [r0] through the Refs vector. *)
Definition tail_ranges : Store Scenario.ExampleCluster :=
  mkStore
    {[ 1%positive :=
         mkObj (mkObjBase (mkObjectID 0 3) 2)
           (mkExampleReferencingTypeMembers
              (mkExampleReferencingTypeData 0 2 0 0)
              (Some 10%positive) (Some 11%positive));
       2%positive :=
         mkObj (mkObjBase (mkObjectID 1 3) 1)
           (mkExampleReferencingTypeMembers
              (mkExampleReferencingTypeData 2 2 0 1)
              (Some 10%positive) (Some 11%positive)) ]}
    {[ 10%positive := [Scenario.ca; Scenario.cb] ]}
    {[ 11%positive := [Scenario.r0] ]}.

(** A vector of two clusters; record [r1] stores the reversed range
    [[2, 1)]. *)
Definition reversed : Store Scenario.ExampleCluster :=
  mkStore {[ 1%positive := Scenario.record 0 0 2;
             2%positive := Scenario.record 1 2 1 ]}
    {[ 10%positive := [Scenario.ca; Scenario.cb] ]} {[ 11%positive := [] ]}.
End ScenarioX.


(** ** HDF5 output of the event information (tests/src) *)

Module H5.
(** [hsize_t], an unsigned 64-bit integer. *)
Definition hsize_t (n : Z) : Z := n mod 2 ^ 64.

(** [EventInfoData], whose one member [int Number] the HDF5 compound type
    is built from. *)
Record EventInfoData := mkEventInfoData { Number : Z }.

(** An [EventInfoCollection] as these functions use it: [size()] entries,
    whose data [_getBuffer()] points to after [prepareForWrite()] (the
    collection class is not part of the sources). *)
Definition EventInfoCollection := list EventInfoData.

(** The calls [writeH5] makes on [dataset_eventInfo] and its data spaces:
    [file.createDataSet] with a memory space of [dims] rows,
    [selectHyperslab(H5S_SELECT_SET, count, start)] on the file space,
    [extend(size)], and [write] of a buffer with a memory space of
    [mem_dims] rows to the selected file space. *)
Inductive Call :=
  | createDataSet (dims : Z)
  | selectHyperslab (count start : Z)
  | extend (size : Z)
  | write (buffer : list EventInfoData) (mem_dims : Z).

(** The members of [H5_EventInfoData] that [writeH5] reads and writes:
    [flag], [size[0]] and [offset[0]].  The constructor sets [flag = 0]
    and leaves the other two uninitialised. *)
Record H5_EventInfoData := mkH5_EventInfoData
  { flag : Z; size0 : Z; offset0 : Z }.

(** [void H5_EventInfoData::writeH5(H5File& file, EventInfoCollection& info)]:
    the calls it makes, in order, and the members afterwards. *)
Definition writeH5 (info : EventInfoCollection) (this : H5_EventInfoData)
  : list Call * H5_EventInfoData :=
  let n := hsize_t (Z.of_nat (length info)) in
  if decide (flag this = 0) then
    ([createDataSet n; selectHyperslab n 0; extend n; write info n],
     mkH5_EventInfoData 1 n 0)
  else
    let offset' := size0 this in
    let size' := hsize_t (size0 this + n) in
    ([extend size'; selectHyperslab n offset'; write info n],
     mkH5_EventInfoData (flag this) size' offset').

(** One [writeH5] per event, as the event loop of tests/write_dummy.cpp
    writes the collections of one event after the other; the calls of
    each event are kept apart. *)
Fixpoint writeEvents (infos : list EventInfoCollection)
    (this : H5_EventInfoData) : list (list Call) * H5_EventInfoData :=
  match infos with
  | [] => ([], this)
  | info :: rest =>
      let '(calls, this') := writeH5 info this in
      let '(more, this'') := writeEvents rest this' in
      (calls :: more, this'')
  end.

(** The number of rows of some collections. *)
Definition rows (infos : list EventInfoCollection) : Z :=
  Z.of_nat (sum_list_with length infos).
End H5.

Module H5Events.
(** An HDF5 file as [writeCollection] and [readCollection] use it: the
    groups and the datasets it holds, by path. *)
Record H5File := mkH5File
  { groups : gset string;
    datasets : gmap string (list H5.EventInfoData) }.

(** [pathExists(file.getId(), group_name)] *)
Definition pathExists (file : H5File) (group_name : string) : bool :=
  bool_decide (group_name ∈ groups file).

(** [DoesDatasetExist(file.getId(), dataset_name)] *)
Definition DoesDatasetExist (file : H5File) (dataset_name : string) : bool :=
  bool_decide (is_Some (datasets file !! dataset_name)).

(** The value of a [size_t] converted to [int]. *)
Definition to_int (n : Z) : Z := (n + 2 ^ 31) mod 2 ^ 32 - 2 ^ 31.

(** The member [event_count] of [H5EventInfoCollection]; the constructor
    sets it to 0.  It is declared in H5EventInfoCollection.h, which is not
    part of the sources, and is taken to be an integer. *)
Record H5EventInfoCollection := mkH5EventInfoCollection { event_count : Z }.

(** How a call ends: it returns, or the HDF5 library throws. *)
Inductive status := Done | H5Exception.

(** [void H5EventInfoCollection::writeCollection(CollectionBase* c,
    H5File& file)].  [file.createGroup] adds the group;
    [file.createDataSet] throws when the file has a dataset at that path
    and makes one otherwise, which [d.write] fills with the first [SIZE]
    rows of the buffer. *)
Definition writeCollection (c : H5.EventInfoCollection) (file : H5File)
    (this : H5EventInfoCollection)
  : status * H5File * H5EventInfoCollection :=
  let this' := mkH5EventInfoCollection (event_count this + 1) in
  let SIZE := to_int (Z.of_nat (length c)) in
  if decide (SIZE > 0) then
    let group_name := pretty (event_count this' - 1) in
    let dataset_name := group_name +:+ "/EventInfo" in
    let file1 :=
      if pathExists file group_name then file
      else mkH5File ({[ group_name ]} ∪ groups file) (datasets file) in
    if DoesDatasetExist file1 dataset_name then (H5Exception, file1, this')
    else
      (Done,
       mkH5File (groups file1)
         (<[dataset_name := take (Z.to_nat SIZE) c]> (datasets file1)),
       this')
  else (Done, file, this').

(** One [writeCollection] per event, until the library throws. *)
Fixpoint writeEvents (cs : list H5.EventInfoCollection) (file : H5File)
    (this : H5EventInfoCollection)
  : status * H5File * H5EventInfoCollection :=
  match cs with
  | [] => (Done, file, this)
  | c :: rest =>
      match writeCollection c file this with
      | (Done, file', this') => writeEvents rest file' this'
      | thrown => thrown
      end
  end.

End H5Events.

Module ScenarioH5.
(** Three events: one row, no row, two rows. *)
Definition events : list H5.EventInfoCollection :=
  [[H5.mkEventInfoData 0]; [];
   [H5.mkEventInfoData 2; H5.mkEventInfoData 3]].

(** A freshly constructed [H5_EventInfoData]: [size] and [offset] hold
    whatever was in memory. *)
Definition fresh : H5.H5_EventInfoData := H5.mkH5_EventInfoData 0 77 99.

(** A file without groups and datasets. *)
Definition empty_file : H5Events.H5File := H5Events.mkH5File ∅ ∅.
End ScenarioH5.

(** * Properties *)

(** ** Handles and the reference count *)

Section HandleFacts.
Context {D : Type}.
Implicit Types (hp : gmap addr (Obj D)) (h : Handle D) (o : Obj D).

Lemma with_refs_id o : with_refs (refs o) o = o.
Proof. by destruct o as [[??]?]. Qed.

Lemma refs_with_refs c o : refs (with_refs c o) = c.
Proof. done. Qed.

Lemma with_refs_with_refs c c' o : with_refs c (with_refs c' o) = with_refs c o.
Proof. done. Qed.

Lemma handle_eta h : mkHandle (m_obj h) = h.
Proof. by destruct h. Qed.

Lemma acquire_live hp p o :
  hp !! p = Some o →
  acquire p hp = Returns (<[p := with_refs (refs o + 1) o]> hp).
Proof. intros Hp. unfold acquire. by rewrite Hp. Qed.

Lemma release_last hp p o :
  hp !! p = Some o → refs o = 1 →
  release p hp = Returns (delete p hp).
Proof.
  intros Hp Hc. unfold release. rewrite Hp. cbn.
  destruct (decide (refs o - 1 = 0)); [done | lia].
Qed.

Lemma release_shared hp p o :
  hp !! p = Some o → refs o ≠ 1 →
  release p hp = Returns (<[p := with_refs (refs o - 1) o]> hp).
Proof.
  intros Hp Hc. unfold release. rewrite Hp. cbn.
  destruct (decide (refs o - 1 = 0)); [lia | done].
Qed.

Lemma release_dangling hp p : hp !! p = None → release p hp = Undefined.
Proof. intros Hp. unfold release. by rewrite Hp. Qed.

Lemma alloc_fresh hp : hp !! alloc hp = None.
Proof. apply not_elem_of_dom. unfold alloc. apply is_fresh. Qed.

Lemma acquire_counts_positive hp p hp' :
  counts_positive hp → acquire p hp = Returns hp' → counts_positive hp'.
Proof.
  intros Hpos. unfold acquire.
  destruct (hp !! p) as [o |] eqn:Hp; [cbn | done].
  intros [= <-] q oq. destruct (decide (p = q)) as [<- | Hne].
  - rewrite lookup_insert_eq. intros [= <-]. rewrite refs_with_refs.
    specialize (Hpos p o Hp). lia.
  - rewrite lookup_insert_ne by done. apply Hpos.
Qed.

Lemma release_counts_positive hp p hp' :
  counts_positive hp → release p hp = Returns hp' → counts_positive hp'.
Proof.
  intros Hpos. unfold release.
  destruct (hp !! p) as [o |] eqn:Hp; [cbn | done].
  case_decide as Hc; intros [= <-] q oq.
  - intros [_ Hq]%lookup_delete_Some. by apply (Hpos q).
  - destruct (decide (p = q)) as [<- | Hne].
    + rewrite lookup_insert_eq. intros [= <-]. rewrite refs_with_refs.
      specialize (Hpos p o Hp). lia.
    + rewrite lookup_insert_ne by done. apply Hpos.
Qed.

(** The handle operations keep the counts of live payloads positive. *)
Lemma handle_operations_counts_positive hp :
  counts_positive hp →
  (∀ h g hp', copy_ctor h hp = Returns (g, hp') → counts_positive hp')
  ∧ (∀ h h' g hp', operator_assign h h' hp = Returns (g, hp') →
       counts_positive hp')
  ∧ (∀ h hp', dtor h hp = Returns hp' → counts_positive hp')
  ∧ (∀ new_id h c hp', clone new_id h hp = Returns (c, hp') →
       counts_positive hp').
Proof.
  intros Hpos. repeat split.
  - intros h g hp'. unfold copy_ctor.
    destruct (m_obj h) as [p |]; [cbn | done].
    destruct (acquire p hp) as [hp1 | |] eqn:Hacq; [cbn | done | done].
    intros [= _ <-]. by eapply acquire_counts_positive.
  - intros h h' g hp'. unfold operator_assign.
    destruct (m_obj h) as [p |]; cbn.
    + destruct (release p hp) as [hp1 | |] eqn:Hrel; [cbn | done | done].
      intros [= _ <-]. by eapply release_counts_positive.
    + by intros [= _ <-].
  - intros h hp'. unfold dtor.
    destruct (m_obj h) as [p |].
    + by apply release_counts_positive.
    + by intros [= <-].
  - intros new_id h c hp'. unfold clone, ptr_ctor.
    destruct (m_obj h) as [p |]; [cbn | done].
    destruct (hp !! p) as [o |] eqn:Hp; [cbn | done].
    erewrite acquire_live by apply lookup_insert_eq. cbn.
    intros [= _ <-] q oq. rewrite insert_insert_eq.
    destruct (decide (alloc hp = q)) as [<- | Hne].
    + rewrite lookup_insert_eq. by intros [= <-].
    + rewrite lookup_insert_ne by done. apply Hpos.
Qed.

(** What the assignment does to two distinct live payloads: the old one
    is released, the new one is left as it was. *)
Lemma operator_assign_distinct hp (this other : Handle D) q p oq op :
  m_obj this = Some q → m_obj other = Some p → q ≠ p →
  hp !! q = Some oq → hp !! p = Some op →
  ∃ hp', operator_assign this other hp = Returns (mkHandle (Some p), hp')
         ∧ hp' !! p = Some op
         ∧ hp' !! q = (if decide (refs oq = 1) then None
                       else Some (with_refs (refs oq - 1) oq)).
Proof.
  intros Hq Hp Hne Hoq Hop. unfold operator_assign. rewrite Hq, Hp.
  destruct (decide (refs oq = 1)) as [H1 | H1].
  - rewrite (release_last _ _ _ Hoq H1). eexists. split; [done |].
    by rewrite lookup_delete_ne, lookup_delete_eq.
  - rewrite (release_shared _ _ _ Hoq H1). eexists. split; [done |].
    by rewrite lookup_insert_ne, lookup_insert_eq.
Qed.
End HandleFacts.

(** C1 (evaluation at the failing input).  With [a] the only handle of
    payload 1 and [b] the only handle of payload 2, the assignment [a = b]
    destroys payload 1 and attaches [a] to payload 2, but the reference
    count of payload 2 stays 1 although two handles now reference it:
    destroying [a] then destroys payload 2, and destroying [b] afterwards
    releases a payload that is gone. *)
Theorem C1_assignment_does_not_acquire :
  ∃ a' hp1 hp2,
    operator_assign Scenario.a Scenario.b Scenario.hits = Returns (a', hp1)
    ∧ m_obj a' = m_obj Scenario.b
    ∧ hp1 !! 1%positive = None
    ∧ refs <$> Scenario.hits !! 2%positive = Some 1
    ∧ refs <$> hp1 !! 2%positive = Some 1
    ∧ dtor a' hp1 = Returns hp2
    ∧ hp2 !! 2%positive = None
    ∧ dtor Scenario.b hp2 = Undefined.
Proof.
  eexists _, _, _. repeat split; vm_compute; reflexivity.
Qed.

(** C9.  Assigning a handle to itself releases its payload and acquires
    nothing: the handle keeps its pointer, a count [n] other than 1
    becomes [n - 1], and a payload with count 1 is destroyed while the
    handle still reports [isAvailable() == true]. *)
Theorem C9_self_assignment {D} (hp : gmap addr (Obj D)) (h : Handle D) p o n :
  m_obj h = Some p → hp !! p = Some o → refs o = n →
  ∃ hp',
    operator_assign h h hp = Returns (h, hp')
    ∧ isAvailable h = true
    ∧ (n ≠ 1 → hp' !! p = Some (with_refs (n - 1) o))
    ∧ (n = 1 → hp' !! p = None)
    ∧ (∀ q, q ≠ p → hp' !! q = hp !! q).
Proof.
  intros Hh Hp Hn. unfold operator_assign, isAvailable.
  rewrite handle_eta, Hh.
  destruct (decide (n = 1)) as [-> | Hne].
  - rewrite (release_last _ _ _ Hp Hn). eexists. split; [done |].
    split; [done |]. split; [done |]. split.
    + intros _. apply lookup_delete_eq.
    + intros q Hq. by apply lookup_delete_ne.
  - subst n. rewrite (release_shared _ _ _ Hp Hne). eexists. split; [done |].
    split; [done |]. split; [| split; [done |]].
    + intros _. apply lookup_insert_eq.
    + intros q Hq. by apply lookup_insert_ne.
Qed.

Lemma C9_self_assignment_witness :
  ∃ hp',
    operator_assign Scenario.b Scenario.b Scenario.hits
      = Returns (Scenario.b, hp')
    ∧ isAvailable Scenario.b = true
    ∧ (1 ≠ 1 → hp' !! 2%positive = Some (with_refs (1 - 1) Scenario.hitP))
    ∧ (1 = 1 → hp' !! 2%positive = None)
    ∧ (∀ q, q ≠ 2%positive → hp' !! q = Scenario.hits !! q).
Proof.
  apply (C9_self_assignment Scenario.hits Scenario.b 2%positive
           Scenario.hitP 1); reflexivity.
Defined.

(** C7.  Copy-constructing [g] from an available handle [h] whose payload
    has count [n] (at least 1: the payload is live) makes the count
    [n + 1]; [g] and [h] are both available and have the same object id;
    after [h] is destroyed the payload is still there, with count [n], and
    [g] still reads its id. *)
Theorem C7_copy_construction {D} (hp : gmap addr (Obj D)) (h : Handle D) p o n :
  m_obj h = Some p → hp !! p = Some o → refs o = n → 0 < n →
  ∃ g hp1 hp2,
    copy_ctor h hp = Returns (g, hp1)
    ∧ hp1 !! p = Some (with_refs (n + 1) o)
    ∧ isAvailable g = true ∧ isAvailable h = true
    ∧ getObjectID g hp1 = Returns (id (base o))
    ∧ getObjectID h hp1 = Returns (id (base o))
    ∧ dtor h hp1 = Returns hp2
    ∧ m_obj g = Some p
    ∧ hp2 !! p = Some o
    ∧ getObjectID g hp2 = Returns (id (base o)).
Proof.
  intros Hh Hp Hn Hpos. subst n.
  assert (Hp1 : <[p := with_refs (refs o + 1) o]> hp !! p
                = Some (with_refs (refs o + 1) o)) by apply lookup_insert_eq.
  exists (mkHandle (Some p)), (<[p := with_refs (refs o + 1) o]> hp),
    (<[p := o]> hp).
  unfold copy_ctor, dtor, getObjectID, isAvailable. rewrite Hh. cbn.
  rewrite (acquire_live _ _ _ Hp). cbn.
  rewrite (release_shared _ _ _ Hp1) by (rewrite refs_with_refs; lia).
  rewrite Hp1, refs_with_refs, with_refs_with_refs, insert_insert_eq.
  replace (refs o + 1 - 1) with (refs o) by lia.
  rewrite with_refs_id, lookup_insert_eq. cbn.
  repeat split; reflexivity.
Qed.

Lemma C7_copy_construction_witness :
  ∃ g hp1 hp2,
    copy_ctor Scenario.b Scenario.hits = Returns (g, hp1)
    ∧ hp1 !! 2%positive = Some (with_refs (1 + 1) Scenario.hitP)
    ∧ isAvailable g = true ∧ isAvailable Scenario.b = true
    ∧ getObjectID g hp1 = Returns (id (base Scenario.hitP))
    ∧ getObjectID Scenario.b hp1 = Returns (id (base Scenario.hitP))
    ∧ dtor Scenario.b hp1 = Returns hp2
    ∧ m_obj g = Some 2%positive
    ∧ hp2 !! 2%positive = Some Scenario.hitP
    ∧ getObjectID g hp2 = Returns (id (base Scenario.hitP)).
Proof.
  apply (C7_copy_construction Scenario.hits Scenario.b 2%positive
           Scenario.hitP 1); [reflexivity | reflexivity | reflexivity | lia].
Defined.

(** C6.  [clone()] on a handle with a live payload returns a handle to a
    newly allocated payload with the members of the source payload and
    reference count 1; the source payload is as it was, and stays so
    under every write to the members of the clone. *)
Theorem C6_clone_is_independent {D} (new_id : ObjectID)
    (hp : gmap addr (Obj D)) (h : Handle D) p o :
  m_obj h = Some p → hp !! p = Some o →
  ∃ c q hp',
    clone new_id h hp = Returns (c, hp')
    ∧ m_obj c = Some q ∧ isAvailable c = true
    ∧ q ≠ p ∧ hp !! q = None
    ∧ hp' !! q = Some (mkObj (mkObjBase new_id 1) (members o))
    ∧ hp' !! p = Some o
    ∧ ∀ f : D → D, ∃ hp'',
        modify f c hp' = Returns hp''
        ∧ hp'' !! q = Some (mkObj (mkObjBase new_id 1) (f (members o)))
        ∧ hp'' !! p = Some o.
Proof.
  intros Hh Hp.
  pose proof (alloc_fresh hp) as Hq.
  assert (Hne : alloc hp ≠ p) by (intros Heq; rewrite Heq, Hp in Hq; done).
  exists (mkHandle (Some (alloc hp))), (alloc hp).
  unfold clone, ptr_ctor, modify. rewrite Hh. cbn. rewrite Hp. cbn.
  erewrite acquire_live by apply lookup_insert_eq. cbn.
  eexists. split; [reflexivity |].
  rewrite insert_insert_eq, lookup_insert_eq, lookup_insert_ne by done.
  do 6 (split; [done |]).
  intros f. eexists. split; [reflexivity |].
  by rewrite lookup_insert_eq, !lookup_insert_ne.
Qed.

Lemma C6_clone_is_independent_witness :
  ∃ c q hp',
    clone (mkObjectID (-1) (-1)) Scenario.b Scenario.hits = Returns (c, hp')
    ∧ m_obj c = Some q ∧ isAvailable c = true
    ∧ q ≠ 2%positive ∧ Scenario.hits !! q = None
    ∧ hp' !! q = Some (mkObj (mkObjBase (mkObjectID (-1) (-1)) 1)
                         (members Scenario.hitP))
    ∧ hp' !! 2%positive = Some Scenario.hitP
    ∧ ∀ f : ExampleHitData → ExampleHitData, ∃ hp'',
        modify f c hp' = Returns hp''
        ∧ hp'' !! q = Some (mkObj (mkObjBase (mkObjectID (-1) (-1)) 1)
                              (f (members Scenario.hitP)))
        ∧ hp'' !! 2%positive = Some Scenario.hitP.
Proof.
  apply (C6_clone_is_independent (mkObjectID (-1) (-1)) Scenario.hits
           Scenario.b 2%positive Scenario.hitP); reflexivity.
Defined.

(** ** Iterators and relation ranges *)

Lemma advance_begin_inside size v n :
  0 ≤ n ≤ Z.of_nat size →
  advance size (vec_begin v) n = Returns (mkIter v n).
Proof.
  intros Hn. unfold advance, vec_begin. cbn. rewrite Z.add_0_l.
  destruct (decide (0 ≤ n ≤ Z.of_nat size)); [done | lia].
Qed.

Lemma advance_begin_outside size v n :
  ¬ (0 ≤ n ≤ Z.of_nat size) → advance size (vec_begin v) n = Undefined.
Proof.
  intros Hn. unfold advance, vec_begin. cbn. rewrite Z.add_0_l.
  destruct (decide (0 ≤ n ≤ Z.of_nat size)); [lia | done].
Qed.

Lemma advance_never_raises size it n err : advance size it n ≠ Raises err.
Proof. unfold advance. by case_decide. Qed.

Lemma incr_inside size v n :
  0 ≤ n < Z.of_nat size → incr size (mkIter v n) = Returns (mkIter v (n + 1)).
Proof.
  intros Hn. unfold incr, advance. cbn.
  destruct (decide (0 ≤ n + 1 ≤ Z.of_nat size)); [done | lia].
Qed.

Lemma incr_at_end size v n :
  Z.of_nat size ≤ n → incr size (mkIter v n) = Undefined.
Proof.
  intros Hn. unfold incr, advance. cbn.
  destruct (decide (0 ≤ n + 1 ≤ Z.of_nat size)); [lia | done].
Qed.

(** The loop from position [a] to position [a + k] of a vector visits the
    [k] elements from index [a] on, in order. *)
Lemma for_range_visits {E} (l : list E) v (k : nat) :
  ∀ (a fuel : nat),
    (a + k ≤ length l)%nat → (k ≤ fuel)%nat →
    for_range fuel l (mkIter v (Z.of_nat a)) (mkIter v (Z.of_nat (a + k)))
    = Some (Returns (take k (drop a l))).
Proof.
  induction k as [| k IH]; intros a fuel Hlen Hfuel.
  - rewrite Nat.add_0_r. destruct fuel; cbn; by rewrite decide_True.
  - destruct fuel as [| fuel]; [lia |]. cbn.
    rewrite decide_False by (intros [= Heq]; lia).
    destruct (lookup_lt_is_Some_2 l a) as [e He]; [lia |].
    unfold star. cbn. rewrite decide_True by lia.
    rewrite Nat2Z.id, He. cbn.
    rewrite incr_inside by lia.
    replace (Z.of_nat a + 1) with (Z.of_nat (S a)) by lia.
    replace (a + S k)%nat with (S a + k)%nat by lia.
    rewrite IH by lia.
    by rewrite (drop_S _ _ _ He).
Qed.

Section RelationFacts.
Context {ExampleCluster : Type}.
Implicit Types (st : Store ExampleCluster) (this : ExampleReferencingType).

(** [addClusters] on a live record whose vector is live: the component
    becomes the last element of that vector and the record's end index
    grows by one; nothing else changes. *)
Lemma addClusters_appends this component st p o v l :
  m_obj this = Some p → objs st !! p = Some o →
  m_Clusters (members o) = Some v → vecs_Clusters st !! v = Some l →
  addClusters this component st
  = Returns (mkStore
               (<[p := mkObj (base o) (Clusters_end_incr (members o))]>
                  (objs st))
               (<[v := l ++ [component]]> (vecs_Clusters st))
               (vecs_Refs st)).
Proof.
  intros Hh Hp Hv Hl. unfold addClusters, modify.
  rewrite Hh. cbn. rewrite Hp. cbn. rewrite Hv. cbn. by rewrite Hl.
Qed.

Lemma Clusters_end_incr_end m :
  data_Clusters_end (data (Clusters_end_incr m))
  = data_Clusters_end (data m) + 1
  ∧ data_Clusters_begin (data (Clusters_end_incr m))
    = data_Clusters_begin (data m).
Proof. done. Qed.

(** [addRefs] on a live record whose vector is live, with a component
    whose payload [pc] is live: a handle to [pc] becomes the last element
    of the vector, [pc] is acquired, and the record's end index grows by
    one. *)
Lemma addRefs_appends this component st p o v l pc oc :
  m_obj this = Some p → objs st !! p = Some o →
  m_Refs (members o) = Some v → vecs_Refs st !! v = Some l →
  m_obj component = Some pc → objs st !! pc = Some oc →
  ∃ o', <[pc := with_refs (refs oc + 1) oc]> (objs st) !! p = Some o'
        ∧ addRefs this component st
          = Returns (mkStore
               (<[p := mkObj (base o') (Refs_end_incr (members o'))]>
                  (<[pc := with_refs (refs oc + 1) oc]> (objs st)))
               (vecs_Clusters st)
               (<[v := l ++ [mkHandle (Some pc)]]> (vecs_Refs st))).
Proof.
  intros Hh Hp Hv Hl Hc Hpc.
  assert (∃ o', <[pc := with_refs (refs oc + 1) oc]> (objs st) !! p = Some o')
    as [o' Ho'].
  { destruct (decide (pc = p)) as [-> | Hne].
    - rewrite lookup_insert_eq. eauto.
    - rewrite lookup_insert_ne by done. eauto. }
  exists o'. split; [done |].
  unfold addRefs, copy_ctor, modify.
  rewrite Hh. cbn. rewrite Hp. cbn. rewrite Hv. cbn. rewrite Hl. cbn.
  rewrite Hc. cbn. rewrite (acquire_live _ _ _ Hpc). cbn.
  by rewrite Ho'.
Qed.

(** [addClusters] leaves the other payloads and the other vectors as they
    were. *)
Lemma addClusters_frame this component st st' p o v :
  m_obj this = Some p → objs st !! p = Some o →
  m_Clusters (members o) = Some v →
  addClusters this component st = Returns st' →
  (∀ q, q ≠ p → objs st' !! q = objs st !! q)
  ∧ (∀ u, u ≠ v → vecs_Clusters st' !! u = vecs_Clusters st !! u)
  ∧ vecs_Refs st' = vecs_Refs st.
Proof.
  intros Hh Hp Hv.
  destruct (vecs_Clusters st !! v) as [l |] eqn:Hl.
  - rewrite (addClusters_appends _ component _ _ _ _ _ Hh Hp Hv Hl).
    intros [= <-]. cbn. split; [| split; [| done]].
    + intros q Hq. by rewrite lookup_insert_ne.
    + intros u Hu. by rewrite lookup_insert_ne.
  - unfold addClusters. rewrite Hh. cbn. rewrite Hp. cbn. rewrite Hv. cbn.
    by rewrite Hl.
Qed.

Lemma Clusters_begin_live this st p o v l :
  m_obj this = Some p → objs st !! p = Some o →
  m_Clusters (members o) = Some v → vecs_Clusters st !! v = Some l →
  Clusters_begin this st
  = advance (length l) (vec_begin v) (data_Clusters_begin (data (members o))).
Proof.
  intros Hh Hp Hv Hl. unfold Clusters_begin.
  rewrite Hh. cbn. rewrite Hp. cbn. rewrite Hv. cbn. by rewrite Hl.
Qed.

Lemma Clusters_end_live this st p o v l :
  m_obj this = Some p → objs st !! p = Some o →
  m_Clusters (members o) = Some v → vecs_Clusters st !! v = Some l →
  Clusters_end this st
  = (ret_value ← advance (length l) (vec_begin v)
                   (data_Clusters_end (data (members o)) - 1);
     incr (length l) ret_value).
Proof.
  intros Hh Hp Hv Hl. unfold Clusters_end.
  rewrite Hh. cbn. rewrite Hp. cbn. rewrite Hv. cbn. by rewrite Hl.
Qed.

Lemma Clusters_begin_never_raises this st err :
  Clusters_begin this st ≠ Raises err.
Proof.
  unfold Clusters_begin.
  destruct (m_obj this) as [p |]; [cbn | done].
  destruct (objs st !! p) as [o |]; [cbn | done].
  destruct (m_Clusters (members o)) as [v |]; [cbn | done].
  destruct (vecs_Clusters st !! v) as [l |]; [cbn | done].
  apply advance_never_raises.
Qed.

Lemma Clusters_end_never_raises this st err :
  Clusters_end this st ≠ Raises err.
Proof.
  unfold Clusters_end.
  destruct (m_obj this) as [p |]; [cbn | done].
  destruct (objs st !! p) as [o |]; [cbn | done].
  destruct (m_Clusters (members o)) as [v |]; [cbn | done].
  destruct (vecs_Clusters st !! v) as [l |]; [cbn | done].
  destruct (advance _ _ _) as [it | e |] eqn:Hadv; cbn; [| | done].
  - apply advance_never_raises.
  - by apply advance_never_raises in Hadv.
Qed.

Lemma Refs_begin_never_raises this st err : Refs_begin this st ≠ Raises err.
Proof.
  unfold Refs_begin.
  destruct (m_obj this) as [p |]; [cbn | done].
  destruct (objs st !! p) as [o |]; [cbn | done].
  destruct (m_Refs (members o)) as [v |]; [cbn | done].
  destruct (vecs_Refs st !! v) as [l |]; [cbn | done].
  apply advance_never_raises.
Qed.

Lemma Refs_end_never_raises this st err : Refs_end this st ≠ Raises err.
Proof.
  unfold Refs_end.
  destruct (m_obj this) as [p |]; [cbn | done].
  destruct (objs st !! p) as [o |]; [cbn | done].
  destruct (m_Refs (members o)) as [v |]; [cbn | done].
  destruct (vecs_Refs st !! v) as [l |]; [cbn | done].
  destruct (advance _ _ _) as [it | e |] eqn:Hadv; cbn; [| | done].
  - apply advance_never_raises.
  - by apply advance_never_raises in Hadv.
Qed.
End RelationFacts.

Section RangeFacts.
Context {ExampleCluster : Type}.
Implicit Types (st : Store ExampleCluster) (this : ExampleReferencingType).

(** The loop over a stored range that lies within the vector and ends at
    1 or later reads the elements of the range. *)
Lemma Clusters_reads_range this st p o v l (fuel : nat) :
  m_obj this = Some p → objs st !! p = Some o →
  m_Clusters (members o) = Some v → vecs_Clusters st !! v = Some l →
  1 ≤ data_Clusters_end (data (members o)) ≤ Z.of_nat (length l) →
  0 ≤ data_Clusters_begin (data (members o))
    ≤ data_Clusters_end (data (members o)) →
  (Z.to_nat (data_Clusters_end (data (members o))
             - data_Clusters_begin (data (members o))) ≤ fuel)%nat →
  Clusters fuel this st
  = Some (Returns
            (take (Z.to_nat (data_Clusters_end (data (members o))
                             - data_Clusters_begin (data (members o))))
               (drop (Z.to_nat (data_Clusters_begin (data (members o)))) l))).
Proof.
  intros Hh Hp Hv Hl Hlast Hfirst Hfuel.
  set (first := data_Clusters_begin (data (members o))) in *.
  set (last := data_Clusters_end (data (members o))) in *.
  unfold Clusters.
  rewrite (Clusters_begin_live _ _ _ _ _ _ Hh Hp Hv Hl).
  rewrite (Clusters_end_live _ _ _ _ _ _ Hh Hp Hv Hl).
  fold first last.
  rewrite (advance_begin_inside _ _ first) by lia. cbn.
  rewrite (advance_begin_inside _ _ (last - 1)) by lia. cbn.
  rewrite incr_inside by lia. cbn.
  rewrite Hh. cbn. rewrite Hp. cbn. rewrite Hv. cbn. rewrite Hl. cbn.
  replace (last - 1 + 1) with last by lia.
  pose proof (for_range_visits l v (Z.to_nat (last - first))
                (Z.to_nat first) fuel) as Hloop.
  replace (Z.of_nat (Z.to_nat first)) with first in Hloop by lia.
  replace (Z.of_nat (Z.to_nat first + Z.to_nat (last - first)))
    with last in Hloop by lia.
  apply Hloop; lia.
Qed.

Lemma Refs_begin_live this st p o v l :
  m_obj this = Some p → objs st !! p = Some o →
  m_Refs (members o) = Some v → vecs_Refs st !! v = Some l →
  Refs_begin this st
  = advance (length l) (vec_begin v) (data_Refs_begin (data (members o))).
Proof.
  intros Hh Hp Hv Hl. unfold Refs_begin.
  rewrite Hh. cbn. rewrite Hp. cbn. rewrite Hv. cbn. by rewrite Hl.
Qed.

Lemma Refs_end_live this st p o v l :
  m_obj this = Some p → objs st !! p = Some o →
  m_Refs (members o) = Some v → vecs_Refs st !! v = Some l →
  Refs_end this st
  = (ret_value ← advance (length l) (vec_begin v)
                   (data_Refs_end (data (members o)) - 1);
     incr (length l) ret_value).
Proof.
  intros Hh Hp Hv Hl. unfold Refs_end.
  rewrite Hh. cbn. rewrite Hp. cbn. rewrite Hv. cbn. by rewrite Hl.
Qed.

Lemma Refs_reads_range this st p o v l (fuel : nat) :
  m_obj this = Some p → objs st !! p = Some o →
  m_Refs (members o) = Some v → vecs_Refs st !! v = Some l →
  1 ≤ data_Refs_end (data (members o)) ≤ Z.of_nat (length l) →
  0 ≤ data_Refs_begin (data (members o)) ≤ data_Refs_end (data (members o)) →
  (Z.to_nat (data_Refs_end (data (members o))
             - data_Refs_begin (data (members o))) ≤ fuel)%nat →
  Refs fuel this st
  = Some (Returns
            (take (Z.to_nat (data_Refs_end (data (members o))
                             - data_Refs_begin (data (members o))))
               (drop (Z.to_nat (data_Refs_begin (data (members o)))) l))).
Proof.
  intros Hh Hp Hv Hl Hlast Hfirst Hfuel.
  set (first := data_Refs_begin (data (members o))) in *.
  set (last := data_Refs_end (data (members o))) in *.
  unfold Refs.
  rewrite (Refs_begin_live _ _ _ _ _ _ Hh Hp Hv Hl).
  rewrite (Refs_end_live _ _ _ _ _ _ Hh Hp Hv Hl).
  fold first last.
  rewrite (advance_begin_inside _ _ first) by lia. cbn.
  rewrite (advance_begin_inside _ _ (last - 1)) by lia. cbn.
  rewrite incr_inside by lia. cbn.
  rewrite Hh. cbn. rewrite Hp. cbn. rewrite Hv. cbn. rewrite Hl. cbn.
  replace (last - 1 + 1) with last by lia.
  pose proof (for_range_visits l v (Z.to_nat (last - first))
                (Z.to_nat first) fuel) as Hloop.
  replace (Z.of_nat (Z.to_nat first)) with first in Hloop by lia.
  replace (Z.of_nat (Z.to_nat first + Z.to_nat (last - first)))
    with last in Hloop by lia.
  apply Hloop; lia.
Qed.
End RangeFacts.

(** C5 (counterexample).  Records [r0] and [r1] point to one relation
    vector and start with the empty range [[0, 0)].  After
    [r0.addClusters(ca); r0.addClusters(cb); r1.addClusters(cc);] the
    vector holds [ca; cb; cc] and each end index has grown by one per
    call, but the begin index of [r1] is still 0: its range [[0, 1)]
    lies within the range [[0, 2)] of [r0] and covers [ca], not [cc]. *)
Lemma C5_shared_vector_counterexample :
  ∃ st o0 o1,
    Scenario.add_three Scenario.one_vector = Returns st
    ∧ vecs_Clusters st !! 10%positive
      = Some [Scenario.ca; Scenario.cb; Scenario.cc]
    ∧ objs st !! 1%positive = Some o0
    ∧ objs st !! 2%positive = Some o1
    ∧ data (members o0) = mkExampleReferencingTypeData 0 2 0 0
    ∧ data (members o1) = mkExampleReferencingTypeData 0 1 0 0
    ∧ Clusters 3 Scenario.r0 st = Some (Returns [Scenario.ca; Scenario.cb])
    ∧ Clusters 3 Scenario.r1 st = Some (Returns [Scenario.ca])
    ∧ Clusters 3 Scenario.r1 st ≠ Some (Returns [Scenario.cc]).
Proof.
  eexists _, _, _. repeat split; try (vm_compute; reflexivity).
  vm_compute. discriminate.
Qed.

(** C5 (amended).  [addClusters] on a live record appends the component
    to the vector the record's payload points to and adds one to the
    record's end index; the begin index stays as it was.  [addRefs] does
    the same on the Refs vector and the Refs indices.  For a second
    record [r1], both records starting with an empty vector and the
    range [[0, 0)], the calls
    [r0.addClusters(a); r0.addClusters(b); r1.addClusters(c);] leave
    [r0] with the range [[0, 2)], read as [a; b], and [r1] with the
    range [[0, 1)]: read as [c] when [r1] has a vector of its own, and as
    [a] when the two records point to one vector, which then holds
    [a; b; c]. *)
Theorem C5_addX_extends_end_only {ExampleCluster}
    (r0 : ExampleReferencingType) (a : ExampleCluster)
    (st : Store ExampleCluster) p0 o0 v0 l0 :
  m_obj r0 = Some p0 → objs st !! p0 = Some o0 →
  m_Clusters (members o0) = Some v0 → vecs_Clusters st !! v0 = Some l0 →
  ∃ s1 o0',
    addClusters r0 a st = Returns s1
    ∧ vecs_Clusters s1 !! v0 = Some (l0 ++ [a])
    ∧ objs s1 !! p0 = Some o0'
    ∧ data_Clusters_end (data (members o0'))
      = data_Clusters_end (data (members o0)) + 1
    ∧ data_Clusters_begin (data (members o0'))
      = data_Clusters_begin (data (members o0))
    ∧ (∀ component vr lr pc oc,
         m_Refs (members o0) = Some vr → vecs_Refs st !! vr = Some lr →
         m_obj component = Some pc → objs st !! pc = Some oc →
         ∃ s o',
           addRefs r0 component st = Returns s
           ∧ vecs_Refs s !! vr = Some (lr ++ [mkHandle (Some pc)])
           ∧ objs s !! p0 = Some o'
           ∧ data_Refs_end (data (members o'))
             = data_Refs_end (data (members o0)) + 1
           ∧ data_Refs_begin (data (members o'))
             = data_Refs_begin (data (members o0)))
    ∧ (∀ (r1 : ExampleReferencingType) (b c : ExampleCluster) p1 o1 v1,
         m_obj r1 = Some p1 → p1 ≠ p0 → objs st !! p1 = Some o1 →
         m_Clusters (members o1) = Some v1 →
         vecs_Clusters st !! v1 = Some [] → l0 = [] →
         data_Clusters_begin (data (members o0)) = 0 →
         data_Clusters_end (data (members o0)) = 0 →
         data_Clusters_begin (data (members o1)) = 0 →
         data_Clusters_end (data (members o1)) = 0 →
         ∃ s3 o0'' o1',
           (s2 ← addClusters r0 b s1; addClusters r1 c s2) = Returns s3
           ∧ objs s3 !! p0 = Some o0'' ∧ objs s3 !! p1 = Some o1'
           ∧ data_Clusters_begin (data (members o0'')) = 0
           ∧ data_Clusters_end (data (members o0'')) = 2
           ∧ data_Clusters_begin (data (members o1')) = 0
           ∧ data_Clusters_end (data (members o1')) = 1
           ∧ (∀ fuel, (2 ≤ fuel)%nat →
                Clusters fuel r0 s3 = Some (Returns [a; b]))
           ∧ (v1 ≠ v0 →
              vecs_Clusters s3 !! v0 = Some [a; b]
              ∧ vecs_Clusters s3 !! v1 = Some [c]
              ∧ ∀ fuel, (1 ≤ fuel)%nat →
                  Clusters fuel r1 s3 = Some (Returns [c]))
           ∧ (v1 = v0 →
              vecs_Clusters s3 !! v0 = Some [a; b; c]
              ∧ ∀ fuel, (1 ≤ fuel)%nat →
                  Clusters fuel r1 s3 = Some (Returns [a]))).
Proof.
  intros Hh Hp Hv Hl.
  pose proof (addClusters_appends r0 a st p0 o0 v0 l0 Hh Hp Hv Hl) as Hs1.
  eexists _, _. split; [exact Hs1 |]. cbn.
  split; [apply lookup_insert_eq |].
  split; [apply lookup_insert_eq |].
  split; [done |]. split; [done |]. split.
  - intros component vr lr pc oc Hvr Hlr Hc Hpc.
    destruct (addRefs_appends r0 component st p0 o0 vr lr pc oc
                Hh Hp Hvr Hlr Hc Hpc) as (o' & Ho' & Hs).
    eexists _, _. split; [exact Hs |]. cbn.
    split; [apply lookup_insert_eq |].
    split; [apply lookup_insert_eq |].
    assert (members o' = members o0) as Hm.
    { destruct (decide (pc = p0)) as [-> | Hne].
      - rewrite lookup_insert_eq in Ho'. injection Ho' as <-.
        replace oc with o0 by congruence. done.
      - rewrite lookup_insert_ne in Ho' by done. congruence. }
    cbn. by rewrite Hm.
  - intros r1 b c p1 o1 v1 Hh1 Hne Hp1 Hv1 Hl1 -> Hf0 He0 Hf1 He1.
    destruct o0 as [bs0 [[f0 e0 rf0 re0] mc0 mr0]].
    destruct o1 as [bs1 [[f1 e1 rf1 re1] mc1 mr1]].
    cbn in Hv, Hv1, Hf0, He0, Hf1, He1. subst. cbn.
    set (o0b := mkObj bs0
                  (mkExampleReferencingTypeMembers
                     (mkExampleReferencingTypeData 0 (0 + 1 + 1) rf0 re0)
                     (Some v0) mr0)).
    set (o1' := mkObj bs1
                  (mkExampleReferencingTypeMembers
                     (mkExampleReferencingTypeData 0 (0 + 1) rf1 re1)
                     (Some v1) mr1)).
    erewrite addClusters_appends;
      [| exact Hh | apply lookup_insert_eq | reflexivity
       | apply lookup_insert_eq].
    cbn.
    assert (Hreads : ∀ (this : ExampleReferencingType) s p o v l first last
                       (es : list ExampleCluster) fuel,
              m_obj this = Some p → objs s !! p = Some o →
              m_Clusters (members o) = Some v →
              vecs_Clusters s !! v = Some l →
              data_Clusters_begin (data (members o)) = first →
              data_Clusters_end (data (members o)) = last →
              1 ≤ last ≤ Z.of_nat (length l) → 0 ≤ first ≤ last →
              (Z.to_nat (last - first) ≤ fuel)%nat →
              take (Z.to_nat (last - first)) (drop (Z.to_nat first) l) = es →
              Clusters fuel this s = Some (Returns es)).
    { intros this s p o v l first last es fuel ? ? ? ? <- <- ? ? ? <-.
      by apply (Clusters_reads_range this s p o v l fuel). }
    destruct (decide (v1 = v0)) as [-> | Hvne].
    + erewrite addClusters_appends;
        [| exact Hh1
         | cbn; rewrite !lookup_insert_ne by done; exact Hp1
         | reflexivity | apply lookup_insert_eq].
      cbn. eexists _, o0b, o1'.
      split; [reflexivity |]. cbn.
      assert (Hq0 : <[p1 := o1']> (<[p0 := o0b]>
                      (<[p0 := mkObj bs0
                                 (mkExampleReferencingTypeMembers
                                    (mkExampleReferencingTypeData 0 (0 + 1)
                                       rf0 re0) (Some v0) mr0)]> (objs st)))
                    !! p0 = Some o0b).
      { rewrite lookup_insert_ne by done. apply lookup_insert_eq. }
      split; [exact Hq0 |].
      split; [apply lookup_insert_eq |].
      do 4 (split; [done |]).
      split; [| split; [done |]].
      * intros fuel Hfuel.
        apply (Hreads r0 _ p0 o0b v0 [a; b; c] 0 2 [a; b] fuel);
          try done; try (cbn; lia).
        apply lookup_insert_eq.
      * intros _. split; [apply lookup_insert_eq |].
        intros fuel Hfuel.
        apply (Hreads r1 _ p1 o1' v0 [a; b; c] 0 1 [a] fuel);
          try done; try (cbn; lia).
        -- apply lookup_insert_eq.
        -- apply lookup_insert_eq.
    + erewrite addClusters_appends;
        [| exact Hh1
         | cbn; rewrite !lookup_insert_ne by done; exact Hp1
         | reflexivity
         | cbn; rewrite !lookup_insert_ne by done; exact Hl1].
      cbn. eexists _, o0b, o1'.
      split; [reflexivity |]. cbn.
      assert (Hq0 : <[p1 := o1']> (<[p0 := o0b]>
                      (<[p0 := mkObj bs0
                                 (mkExampleReferencingTypeMembers
                                    (mkExampleReferencingTypeData 0 (0 + 1)
                                       rf0 re0) (Some v0) mr0)]> (objs st)))
                    !! p0 = Some o0b).
      { rewrite lookup_insert_ne by done. apply lookup_insert_eq. }
      assert (Hw0 : <[v1 := [c]]>
                      (<[v0 := [a; b]]> (<[v0 := [a]]> (vecs_Clusters st)))
                    !! v0 = Some [a; b]).
      { rewrite lookup_insert_ne by done. apply lookup_insert_eq. }
      split; [exact Hq0 |].
      split; [apply lookup_insert_eq |].
      do 4 (split; [done |]).
      split; [| split; [| done]].
      * intros fuel Hfuel.
        apply (Hreads r0 _ p0 o0b v0 [a; b] 0 2 [a; b] fuel);
          try done; try (cbn; lia).
      * intros _. split; [exact Hw0 |].
        split; [apply lookup_insert_eq |].
        intros fuel Hfuel.
        apply (Hreads r1 _ p1 o1' v1 [c] 0 1 [c] fuel);
          try done; try (cbn; lia).
        -- apply lookup_insert_eq.
        -- apply lookup_insert_eq.
Qed.

Lemma C5_addX_extends_end_only_witness :
  ∃ s3,
    Scenario.add_three Scenario.own_vectors = Returns s3
    ∧ vecs_Clusters s3 !! 10%positive = Some [Scenario.ca; Scenario.cb]
    ∧ vecs_Clusters s3 !! 12%positive = Some [Scenario.cc]
    ∧ Clusters 2 Scenario.r0 s3 = Some (Returns [Scenario.ca; Scenario.cb])
    ∧ Clusters 2 Scenario.r1 s3 = Some (Returns [Scenario.cc]).
Proof.
  destruct (C5_addX_extends_end_only Scenario.r0 Scenario.ca
              Scenario.own_vectors 1%positive
              (Scenario.own_record 0 10%positive 11%positive)
              10%positive [])
    as (s1 & o0' & Hs1 & _ & _ & _ & _ & _ & Hseq);
    [reflexivity | reflexivity | reflexivity | reflexivity |].
  destruct (Hseq Scenario.r1 Scenario.cb Scenario.cc 2%positive
              (Scenario.own_record 1 12%positive 13%positive) 12%positive)
    as (s3 & o0'' & o1' & Hs3 & _ & _ & _ & _ & _ & _ & Hr0 & Hown & _);
    [reflexivity | discriminate | reflexivity | reflexivity | reflexivity
     | reflexivity | reflexivity | reflexivity | reflexivity | reflexivity |].
  destruct Hown as (Hv0 & Hv1 & Hr1); [discriminate |].
  exists s3. unfold Scenario.add_three. rewrite Hs1.
  split; [exact Hs3 |]. split; [exact Hv0 |]. split; [exact Hv1 |].
  split; [apply Hr0; lia | apply Hr1; lia].
Defined.


(** C8 (counterexample).  Over a vector of one cluster, a record storing
    the range [[1, 0)] (begin > end) gets an iterator from
    [Clusters_begin()], and a record storing [[0, 5)] (end beyond the
    vector) gets one too; [Clusters_end()] is an out-of-range iterator
    computation for both.  No call raises [RelationRangeError]. *)
Lemma C8_no_range_error_counterexample :
  Clusters_begin Scenario.r0 Scenario.bad_ranges
    = Returns (mkIter 10%positive 1)
  ∧ Clusters_end Scenario.r0 Scenario.bad_ranges = Undefined
  ∧ Clusters_begin Scenario.r1 Scenario.bad_ranges
    = Returns (mkIter 10%positive 0)
  ∧ Clusters_end Scenario.r1 Scenario.bad_ranges = Undefined
  ∧ ¬ (Clusters_begin Scenario.r0 Scenario.bad_ranges
         = Raises RelationRangeError
       ∨ Clusters_end Scenario.r0 Scenario.bad_ranges
         = Raises RelationRangeError
       ∨ Clusters_begin Scenario.r1 Scenario.bad_ranges
         = Raises RelationRangeError
       ∨ Clusters_end Scenario.r1 Scenario.bad_ranges
         = Raises RelationRangeError).
Proof.
  do 4 (split; [vm_compute; reflexivity |]).
  intros [H | [H | [H | H]]]; vm_compute in H; discriminate.
Qed.

(** C8 (amended).  For a record whose stored range has begin > end or end
    beyond its vector, the accessors check nothing and raise nothing:
    [Clusters_begin()] returns the iterator at the stored begin index
    whenever that index lies within the vector, and [Clusters_end()] with
    an end index beyond the vector is an out-of-range iterator
    computation. *)
Theorem C8_range_is_not_checked {ExampleCluster}
    (this : ExampleReferencingType) (st : Store ExampleCluster) p o v l :
  m_obj this = Some p → objs st !! p = Some o →
  m_Clusters (members o) = Some v → vecs_Clusters st !! v = Some l →
  data_Clusters_begin (data (members o)) > data_Clusters_end (data (members o))
  ∨ data_Clusters_end (data (members o)) > Z.of_nat (length l) →
  (∀ err, Clusters_begin this st ≠ Raises err
          ∧ Clusters_end this st ≠ Raises err)
  ∧ (0 ≤ data_Clusters_begin (data (members o)) ≤ Z.of_nat (length l) →
     Clusters_begin this st
     = Returns (mkIter v (data_Clusters_begin (data (members o)))))
  ∧ (data_Clusters_end (data (members o)) > Z.of_nat (length l) →
     Clusters_end this st = Undefined).
Proof.
  intros Hh Hp Hv Hl _. split; [| split].
  - intros err. split.
    + apply Clusters_begin_never_raises.
    + apply Clusters_end_never_raises.
  - intros Hin. rewrite (Clusters_begin_live _ _ _ _ _ _ Hh Hp Hv Hl).
    by apply advance_begin_inside.
  - intros Hout. rewrite (Clusters_end_live _ _ _ _ _ _ Hh Hp Hv Hl).
    destruct (decide (data_Clusters_end (data (members o)) - 1
                      = Z.of_nat (length l))) as [Heq | Hne].
    + rewrite advance_begin_inside by lia. cbn.
      apply incr_at_end. lia.
    + by rewrite advance_begin_outside by lia.
Qed.

Lemma C8_range_is_not_checked_witness :
  (∀ err, Clusters_begin Scenario.r0 Scenario.bad_ranges ≠ Raises err
          ∧ Clusters_end Scenario.r0 Scenario.bad_ranges ≠ Raises err)
  ∧ (0 ≤ 1 ≤ Z.of_nat (length [Scenario.ca]) →
     Clusters_begin Scenario.r0 Scenario.bad_ranges
     = Returns (mkIter 10%positive 1))
  ∧ (0 > Z.of_nat (length [Scenario.ca]) →
     Clusters_end Scenario.r0 Scenario.bad_ranges = Undefined).
Proof.
  apply (C8_range_is_not_checked Scenario.r0 Scenario.bad_ranges 1%positive
           (Scenario.record 0 1 0) 10%positive [Scenario.ca]);
    [reflexivity | reflexivity | reflexivity | reflexivity | left; cbn; lia].
Defined.

(** C10 (counterexample).  Over a vector of two clusters, record [r1]
    stores the range [[2, 1)]: its end index is 1, and [Clusters_end()]
    is [begin()] advanced by 1.  The loop from [Clusters_begin()] to
    [Clusters_end()] starts behind its end and, whatever the number of
    steps allowed, never delivers a sequence of elements.  Over a vector
    of one cluster, a record with the range [[0, 5)] has no
    [Clusters_end()] at all, and no sequence either. *)
Lemma C10_range_outside_counterexample :
  (∃ o, objs ScenarioX.reversed !! 2%positive = Some o
        ∧ data_Clusters_begin (data (members o)) = 2
        ∧ data_Clusters_end (data (members o)) = 1)
  ∧ Clusters_end Scenario.r1 ScenarioX.reversed
    = Returns (mkIter 10%positive 1)
  ∧ advance 2 (vec_begin 10%positive) 1 = Returns (mkIter 10%positive 1)
  ∧ Clusters_begin Scenario.r1 ScenarioX.reversed
    = Returns (mkIter 10%positive 2)
  ∧ Clusters 3 Scenario.r1 ScenarioX.reversed = Some Undefined
  ∧ (∀ fuel es,
       Clusters fuel Scenario.r1 ScenarioX.reversed ≠ Some (Returns es))
  ∧ Clusters_end Scenario.r1 Scenario.bad_ranges = Undefined
  ∧ (∀ fuel es,
       Clusters fuel Scenario.r1 Scenario.bad_ranges ≠ Some (Returns es)).
Proof.
  split; [by eexists |].
  do 4 (split; [vm_compute; reflexivity |]).
  split; [| split; [vm_compute; reflexivity |]].
  - intros [| fuel] es; vm_compute; discriminate.
  - intros fuel es. vm_compute. discriminate.
Qed.

(** C10 (amended).  On a live record, with [first] and [last] the stored
    begin and end index of its [Clusters] range and [l] its vector:
    - if [last] is at least 1, [Clusters_end()] is [begin()] advanced by
      [last];
    - if moreover [last] is within the vector, that is the iterator at
      [last], and for [first] between 0 and [last] the loop from
      [Clusters_begin()] to [Clusters_end()] visits exactly
      [last - first] elements, those of [l] from index [first] on;
    - if [last] is 0, advancing by [last - 1] moves before [begin()], so
      [Clusters_end()] is not defined, although [begin()] advanced by
      [last] is. *)
Theorem C10_Clusters_end_needs_one {ExampleCluster}
    (this : ExampleReferencingType) (st : Store ExampleCluster) p o v l :
  m_obj this = Some p → objs st !! p = Some o →
  m_Clusters (members o) = Some v → vecs_Clusters st !! v = Some l →
  let first := data_Clusters_begin (data (members o)) in
  let last := data_Clusters_end (data (members o)) in
  (1 ≤ last →
   Clusters_end this st = advance (length l) (vec_begin v) last)
  ∧ (1 ≤ last ≤ Z.of_nat (length l) →
     Clusters_end this st = Returns (mkIter v last)
     ∧ ∀ fuel, 0 ≤ first ≤ last → (Z.to_nat (last - first) ≤ fuel)%nat →
         ∃ es, Clusters fuel this st = Some (Returns es)
               ∧ Z.of_nat (length es) = last - first
               ∧ es = take (Z.to_nat (last - first)) (drop (Z.to_nat first) l))
  ∧ (last = 0 →
     advance (length l) (vec_begin v) (last - 1) = Undefined
     ∧ Clusters_end this st = Undefined
     ∧ advance (length l) (vec_begin v) last = Returns (vec_begin v)).
Proof.
  intros Hh Hp Hv Hl first last.
  pose proof (Clusters_end_live _ _ _ _ _ _ Hh Hp Hv Hl) as Hend.
  pose proof (Clusters_begin_live _ _ _ _ _ _ Hh Hp Hv Hl) as Hbegin.
  fold first in Hbegin. fold last in Hend.
  assert (Hin : 1 ≤ last ≤ Z.of_nat (length l) →
                Clusters_end this st = Returns (mkIter v last)).
  { intros Hlast. rewrite Hend, advance_begin_inside by lia. cbn.
    rewrite incr_inside by lia. do 2 f_equal. lia. }
  split; [| split].
  - intros Hlast.
    destruct (decide (last ≤ Z.of_nat (length l))) as [Hle | Hgt].
    + rewrite Hin, advance_begin_inside by lia. done.
    + rewrite (advance_begin_outside _ _ last) by lia. rewrite Hend.
      destruct (decide (last - 1 = Z.of_nat (length l))) as [Heq | Hne].
      * rewrite advance_begin_inside by lia. cbn. apply incr_at_end. lia.
      * by rewrite advance_begin_outside by lia.
  - intros Hlast. split; [by apply Hin |].
    intros fuel Hfirst Hfuel.
    exists (take (Z.to_nat (last - first)) (drop (Z.to_nat first) l)).
    split; [| split; [| done]].
    + unfold Clusters. rewrite Hbegin, (Hin Hlast).
      rewrite advance_begin_inside by lia. cbn.
      rewrite Hh. cbn. rewrite Hp. cbn. rewrite Hv. cbn. rewrite Hl. cbn.
      pose proof (for_range_visits l v (Z.to_nat (last - first))
                    (Z.to_nat first) fuel) as Hloop.
      replace (Z.of_nat (Z.to_nat first)) with first in Hloop by lia.
      replace (Z.of_nat (Z.to_nat first + Z.to_nat (last - first)))
        with last in Hloop by lia.
      apply Hloop; lia.
    + rewrite length_take, length_drop. lia.
  - intros H0. rewrite Hend, H0. cbn.
    split; [| split].
    + apply advance_begin_outside. lia.
    + by rewrite advance_begin_outside by lia.
    + apply advance_begin_inside. lia.
Qed.

Lemma C10_Clusters_end_needs_one_witness :
  (Clusters_end Scenario.r0 Scenario.good_ranges
   = Returns (mkIter 10%positive 2)
   ∧ ∃ es, Clusters 2 Scenario.r0 Scenario.good_ranges = Some (Returns es)
           ∧ Z.of_nat (length es) = 2 - 0)
  ∧ Clusters_end Scenario.r0 Scenario.own_vectors = Undefined.
Proof.
  split.
  - destruct (C10_Clusters_end_needs_one Scenario.r0 Scenario.good_ranges
                1%positive (Scenario.record 0 0 2) 10%positive
                [Scenario.ca; Scenario.cb; Scenario.cc])
      as (_ & Hin & _); [reflexivity | reflexivity | reflexivity | reflexivity |].
    destruct Hin as [Hend Hloop]; [cbn; lia |].
    split; [exact Hend |].
    destruct (Hloop 2%nat) as (es & Hes & Hlen & _); [cbn; lia | cbn; lia |].
    exists es. split; [exact Hes | exact Hlen].
  - destruct (C10_Clusters_end_needs_one Scenario.r0 Scenario.own_vectors
                1%positive (Scenario.own_record 0 10%positive 11%positive) 10%positive [])
      as (_ & _ & Hzero); [reflexivity | reflexivity | reflexivity | reflexivity |].
    destruct Hzero as (_ & Hend & _); [reflexivity | exact Hend].
Defined.

(** ** The schema evolution registry *)

Section SchemaEvolutionFacts.
Context {CollectionReadBuffers World : Type}.
Implicit Types (reg : SchemaEvolution CollectionReadBuffers World)
  (r : EvolutionFuncT CollectionReadBuffers World)
  (tbl : list (option (EvolutionFuncT CollectionReadBuffers World))).

Lemma setSlot_lookup tbl v r :
  mjoin (setSlot tbl v r !! N.to_nat v) = Some r.
Proof.
  unfold setSlot, EvolFuncVersionMapT. cbv zeta. case_decide as Hlt.
  - by rewrite list_lookup_insert_eq.
  - rewrite lookup_app_r by lia. rewrite lookup_app_r;
      rewrite length_replicate; [| lia].
    by replace (N.to_nat v - length tbl - (N.to_nat v - length tbl))%nat
      with 0%nat by lia.
Qed.

Lemma setSlot_length tbl v r :
  (N.to_nat v < length (setSlot tbl v r))%nat.
Proof.
  unfold setSlot, EvolFuncVersionMapT. cbv zeta. case_decide as Hlt.
  - by rewrite length_insert.
  - rewrite !length_app, length_replicate. cbn. lia.
Qed.

Lemma setSlot_setSlot tbl v r r' :
  setSlot (setSlot tbl v r) v r' = setSlot tbl v r'.
Proof.
  pose proof (setSlot_length tbl v r) as Hlen.
  unfold setSlot at 1. cbv zeta. rewrite decide_True by done. clear Hlen.
  unfold setSlot, EvolFuncVersionMapT. cbv zeta. case_decide as Hlt.
  - by rewrite list_insert_insert_eq.
  - rewrite insert_app_r_alt by lia.
    rewrite insert_app_r_alt by (rewrite length_replicate; lia).
    rewrite length_replicate.
    by replace (N.to_nat v - length tbl - (N.to_nat v - length tbl))%nat
      with 0%nat by lia.
Qed.

Lemma registered_known reg collType v mi tbl :
  m_versionMapIndices reg !! collType = Some mi →
  index mi ≠ NoEvolutionAvailable →
  m_evolutionFuncs reg !! N.to_nat (index mi) = Some tbl →
  registered reg collType v = mjoin (tbl !! N.to_nat v).
Proof.
  intros Hmi Hidx Htbl. unfold registered, funcTable.
  rewrite Hmi. cbn. rewrite decide_False by done.
  unfold EvolFuncVersionMapT in *. by rewrite Htbl.
Qed.

(** Evolution from a version with a registered function is one call of
    that function. *)
Lemma evolveBuffers_registered reg collType v mi r b w :
  m_versionMapIndices reg !! collType = Some mi →
  v ≠ currentVersion mi →
  registered reg collType v = Some r →
  evolveBuffers reg b v collType w = r b v w.
Proof.
  intros Hmi Hv Hr. unfold evolveBuffers.
  rewrite Hmi, decide_False by done. by rewrite Hr.
Qed.

(** The first registration of a type, or of a type without a function
    table, makes a table for it. *)
Lemma register_new_table reg collType v cv f pr :
  N.of_nat (length (m_evolutionFuncs reg)) ≠ NoEvolutionAvailable →
  (∀ mi, m_versionMapIndices reg !! collType = Some mi →
         currentVersion mi = cv ∧ index mi = NoEvolutionAvailable) →
  registerEvolutionFunc collType v cv f pr reg
  = (Returns (),
     mkSchemaEvolution
       (<[collType := mkMapIndex cv (N.of_nat (length (m_evolutionFuncs reg)))]>
          (m_versionMapIndices reg))
       (m_evolutionFuncs reg ++ [setSlot [] v f])).
Proof.
  intros Hlen Hmi. unfold registerEvolutionFunc.
  destruct (m_versionMapIndices reg !! collType) as [mi |]; [| done].
  destruct (Hmi mi eq_refl) as [Hcv Hidx].
  rewrite decide_False by (intros Hne; by apply Hne).
  by rewrite decide_True.
Qed.

(** A registration for a known type with a table: refused when it is
    [AutoGenerated] and the slot holds a function, written to the slot
    otherwise. *)
Lemma register_in_table reg collType v cv f pr mi tbl :
  m_versionMapIndices reg !! collType = Some mi →
  currentVersion mi = cv →
  index mi ≠ NoEvolutionAvailable →
  m_evolutionFuncs reg !! N.to_nat (index mi) = Some tbl →
  registerEvolutionFunc collType v cv f pr reg
  = match mjoin (tbl !! N.to_nat v), pr with
    | Some _, AutoGenerated => (Raises PriorityConflictError, reg)
    | _, _ =>
        (Returns (),
         mkSchemaEvolution (m_versionMapIndices reg)
           (<[N.to_nat (index mi) := setSlot tbl v f]>
              (m_evolutionFuncs reg)))
    end.
Proof.
  intros Hmi Hcv Hidx Htbl. unfold registerEvolutionFunc.
  rewrite Hmi, decide_False by (intros Hne; by apply Hne).
  rewrite decide_False by done.
  unfold EvolFuncVersionMapT in *. by rewrite Htbl.
Qed.

(** A registration on a registry that accepts the type is refused when
    it is [AutoGenerated] and the slot holds a function, and accepted
    otherwise.  The registry an accepted registration leaves is described
    by its version map [vm'], the position [idx] of the type's table and
    the other tables [F]; the type's table is [tbl0] with the slot set. *)
Lemma register_accepted_type reg collType v cv :
  accepts_type reg collType cv →
  ∃ vm' (F : list (option (EvolutionFuncT CollectionReadBuffers World)) →
             list (list (option (EvolutionFuncT CollectionReadBuffers World))))
    (idx : nat) tbl0,
    vm' !! collType = Some (mkMapIndex cv (N.of_nat idx))
    ∧ N.of_nat idx ≠ NoEvolutionAvailable
    ∧ (∀ t, F t !! idx = Some t)
    ∧ (∀ t t', <[idx := t']> (F t) = F t')
    ∧ ∀ f pr,
        registerEvolutionFunc collType v cv f pr reg
        = match registered reg collType v, pr with
          | Some _, AutoGenerated => (Raises PriorityConflictError, reg)
          | _, _ =>
              (Returns (), mkSchemaEvolution vm' (F (setSlot tbl0 v f)))
          end.
Proof.
  intros [Hlen Hknown].
  assert (Hnew :
    (∀ mi, m_versionMapIndices reg !! collType = Some mi →
           currentVersion mi = cv ∧ index mi = NoEvolutionAvailable) →
    ∃ vm' F (idx : nat) tbl0,
      vm' !! collType = Some (mkMapIndex cv (N.of_nat idx))
      ∧ N.of_nat idx ≠ NoEvolutionAvailable
      ∧ (∀ t, F t !! idx = Some t)
      ∧ (∀ t t', <[idx := t']> (F t) = F t')
      ∧ ∀ f pr,
          registerEvolutionFunc collType v cv f pr reg
          = match registered reg collType v, pr with
            | Some _, AutoGenerated => (Raises PriorityConflictError, reg)
            | _, _ =>
                (Returns (), mkSchemaEvolution vm' (F (setSlot tbl0 v f)))
            end).
  { intros Htomb.
    assert (Hfree : registered reg collType v = None).
    { unfold registered, funcTable.
      destruct (m_versionMapIndices reg !! collType) as [mi |]; [| done].
      cbn. destruct (Htomb mi eq_refl) as [_ Hidx].
      by rewrite decide_True. }
    exists (<[collType := mkMapIndex cv (N.of_nat (length (m_evolutionFuncs reg)))]>
              (m_versionMapIndices reg)),
      (λ t, m_evolutionFuncs reg ++ [t]),
      (length (m_evolutionFuncs reg)), [].
    split; [apply lookup_insert_eq |]. split; [done |].
    split; [intros t; apply list_lookup_middle; done |].
    split.
    - intros t t'. rewrite insert_app_r_alt by lia.
      by rewrite Nat.sub_diag.
    - intros f pr. rewrite Hfree. by apply register_new_table. }
  destruct (m_versionMapIndices reg !! collType) as [mi |] eqn:Hmi;
    [| apply Hnew; intros mi [=]].
  destruct (Hknown mi eq_refl) as [Hcv Hindex].
  destruct (decide (index mi = NoEvolutionAvailable)) as [Htomb | Hidx];
    [apply Hnew; by intros ? [= <-] |].
  destruct Hindex as [? | Hlt]; [done |].
  destruct (lookup_lt_is_Some_2 _ _ Hlt) as [tbl Htbl].
  exists (m_versionMapIndices reg),
    (λ t, <[N.to_nat (index mi) := t]> (m_evolutionFuncs reg)),
    (N.to_nat (index mi)), tbl.
  rewrite N2Nat.id.
  split; [rewrite Hmi; destruct mi; cbn in *; by subst |].
  split; [done |].
  split; [intros t; by apply list_lookup_insert_eq |].
  split; [intros t t'; apply list_insert_insert_eq |].
  intros f pr.
  rewrite (register_in_table _ _ _ _ _ _ _ _ Hmi Hcv Hidx Htbl).
  by rewrite (registered_known _ _ _ _ _ Hmi Hidx Htbl).
Qed.

(** A registration for a slot that holds [r], in a registry of the shape
    left by an accepted registration. *)
Lemma register_held_slot collType v cv vm'
    (F : list (option (EvolutionFuncT CollectionReadBuffers World)) →
         list (list (option (EvolutionFuncT CollectionReadBuffers World))))
    (idx : nat) tbl0 r f pr :
  vm' !! collType = Some (mkMapIndex cv (N.of_nat idx)) →
  N.of_nat idx ≠ NoEvolutionAvailable →
  (∀ t, F t !! idx = Some t) →
  (∀ t t', <[idx := t']> (F t) = F t') →
  registerEvolutionFunc collType v cv f pr
    (mkSchemaEvolution vm' (F (setSlot tbl0 v r)))
  = match pr with
    | AutoGenerated =>
        (Raises PriorityConflictError,
         mkSchemaEvolution vm' (F (setSlot tbl0 v r)))
    | UserDefined =>
        (Returns (), mkSchemaEvolution vm' (F (setSlot tbl0 v f)))
    end.
Proof.
  intros Hvm Hidx Hlook Hins.
  rewrite (register_in_table _ collType v cv f pr
             (mkMapIndex cv (N.of_nat idx)) (setSlot tbl0 v r));
    [| exact Hvm | reflexivity | exact Hidx
     | cbn [index m_evolutionFuncs]; rewrite Nat2N.id; apply Hlook].
  cbn [index m_evolutionFuncs m_versionMapIndices].
  rewrite Nat2N.id, setSlot_lookup.
  destruct pr; [done |].
  by rewrite Hins, setSlot_setSlot.
Qed.

Lemma registered_in_slot collType v cv vm'
    (F : list (option (EvolutionFuncT CollectionReadBuffers World)) →
         list (list (option (EvolutionFuncT CollectionReadBuffers World))))
    (idx : nat) tbl0 r :
  vm' !! collType = Some (mkMapIndex cv (N.of_nat idx)) →
  N.of_nat idx ≠ NoEvolutionAvailable →
  (∀ t, F t !! idx = Some t) →
  registered (mkSchemaEvolution vm' (F (setSlot tbl0 v r))) collType v
  = Some r.
Proof.
  intros Hvm Hidx Hlook.
  rewrite (registered_known _ collType v (mkMapIndex cv (N.of_nat idx))
             (setSlot tbl0 v r));
    [| exact Hvm | exact Hidx
     | cbn [index m_evolutionFuncs]; rewrite Nat2N.id; apply Hlook].
  apply setSlot_lookup.
Qed.
End SchemaEvolutionFacts.

Lemma evolveBuffers_current_version {CollectionReadBuffers World}
    (reg : SchemaEvolution CollectionReadBuffers World) collType mi
    (b : CollectionReadBuffers) (w : World) :
  m_versionMapIndices reg !! collType = Some mi →
  evolveBuffers reg b (currentVersion mi) collType w = (Returns b, w).
Proof.
  intros Hmi. unfold evolveBuffers. by rewrite Hmi, decide_True.
Qed.

(** C2.  For a type registered with current version [V], evolving buffers
    of version [V] returns the buffers passed in and leaves the world as
    it is, whatever functions are registered: none of them is called and
    nothing is allocated. *)
Theorem C2_current_version_is_returned {CollectionReadBuffers World}
    (reg : SchemaEvolution CollectionReadBuffers World) collType mi
    (b : CollectionReadBuffers) (w : World) :
  m_versionMapIndices reg !! collType = Some mi →
  evolveBuffers reg b (currentVersion mi) collType w = (Returns b, w).
Proof. apply evolveBuffers_current_version. Qed.

Lemma C2_current_version_is_returned_witness :
  evolveBuffers Scenario.track_registry [5; 6] 3%N "Track" 0%nat
  = (Returns [5; 6], 0%nat).
Proof.
  apply (C2_current_version_is_returned Scenario.track_registry "Track"
           (mkMapIndex 3%N 0%N) [5; 6] 0%nat).
  reflexivity.
Defined.

(** C3.  For a registered type and a version [k] other than its current
    version with no function registered for it, [evolveBuffers] raises
    [LookupMiss] and calls nothing; that outcome is not the return of the
    input buffers that the current version gets. *)
Theorem C3_lookup_miss_is_an_error {CollectionReadBuffers World}
    (reg : SchemaEvolution CollectionReadBuffers World) collType mi k
    (b : CollectionReadBuffers) (w : World) :
  m_versionMapIndices reg !! collType = Some mi →
  k ≠ currentVersion mi →
  registered reg collType k = None →
  evolveBuffers reg b k collType w = (Raises LookupMiss, w)
  ∧ evolveBuffers reg b k collType w ≠ (Returns b, w)
  ∧ evolveBuffers reg b k collType w
    ≠ evolveBuffers reg b (currentVersion mi) collType w.
Proof.
  intros Hmi Hk Hnone.
  assert (Hmiss : evolveBuffers reg b k collType w = (Raises LookupMiss, w)).
  { unfold evolveBuffers. rewrite Hmi, decide_False by done. by rewrite Hnone. }
  rewrite (evolveBuffers_current_version reg collType mi b w Hmi), Hmiss.
  done.
Qed.

Lemma C3_lookup_miss_is_an_error_witness :
  evolveBuffers Scenario.track_registry [5; 6] 1%N "Track" 0%nat
  = (Raises LookupMiss, 0%nat)
  ∧ evolveBuffers Scenario.track_registry [5; 6] 1%N "Track" 0%nat
    ≠ (Returns [5; 6], 0%nat)
  ∧ evolveBuffers Scenario.track_registry [5; 6] 1%N "Track" 0%nat
    ≠ evolveBuffers Scenario.track_registry [5; 6] 3%N "Track" 0%nat.
Proof.
  apply (C3_lookup_miss_is_an_error Scenario.track_registry "Track"
           (mkMapIndex 3%N 0%N) 1%N [5; 6] 0%nat);
    [reflexivity | discriminate | reflexivity].
Defined.

(** C4.  On a registry that accepts the type, register an
    [AutoGenerated] function [auto] and a [UserDefined] function [user]
    for the slot [(collType, fromVersion)].  [auto] then [user]: the
    registration of [user] is accepted and [user] holds the slot,
    whether [auto] was accepted (the slot was free: [auto] held it and
    is replaced) or refused (the slot was held).  [user] then [auto]:
    [user] is accepted and the registration of [auto] is refused with
    [PriorityConflictError] and changes nothing.  Both orders leave the
    same registry, in which [user] holds the slot and is the function
    [evolveBuffers] calls. *)
Theorem C4_priority_decides {CollectionReadBuffers World}
    (reg : SchemaEvolution CollectionReadBuffers World)
    (collType : string) (fromVersion cv : SchemaVersionT)
    (auto user : EvolutionFuncT CollectionReadBuffers World) :
  accepts_type reg collType cv →
  fromVersion ≠ cv →
  let register := registerEvolutionFunc collType fromVersion cv in
  let A := register auto AutoGenerated reg in
  let AU := register user UserDefined (snd A) in
  let U := register user UserDefined reg in
  let UA := register auto AutoGenerated (snd U) in
  fst AU = Returns ()
  ∧ fst U = Returns () ∧ fst UA = Raises PriorityConflictError
  ∧ snd UA = snd U
  ∧ snd AU = snd UA
  ∧ registered (snd AU) collType fromVersion = Some user
  ∧ (∀ b w, evolveBuffers (snd AU) b fromVersion collType w
            = user b fromVersion w
            ∧ evolveBuffers (snd UA) b fromVersion collType w
              = user b fromVersion w)
  ∧ (registered reg collType fromVersion = None →
     fst A = Returns ()
     ∧ registered (snd A) collType fromVersion = Some auto)
  ∧ (registered reg collType fromVersion ≠ None →
     A = (Raises PriorityConflictError, reg)).
Proof.
  intros Hacc Hv register A AU U UA.
  destruct (register_accepted_type reg collType fromVersion cv Hacc)
    as (vm' & F & idx & tbl0 & Hvm & Hidx & Hlook & Hins & Hfirst).
  assert (HU : U = (Returns (),
                    mkSchemaEvolution vm' (F (setSlot tbl0 fromVersion user)))).
  { unfold U, register. rewrite Hfirst.
    by destruct (registered reg collType fromVersion). }
  assert (HUA : UA = (Raises PriorityConflictError,
                      mkSchemaEvolution vm'
                        (F (setSlot tbl0 fromVersion user)))).
  { unfold UA, register. rewrite HU. cbn [snd].
    by rewrite (register_held_slot _ _ _ _ _ _ _ _ _ AutoGenerated
                  Hvm Hidx Hlook Hins). }
  assert (HAU : AU = (Returns (),
                      mkSchemaEvolution vm'
                        (F (setSlot tbl0 fromVersion user)))).
  { unfold AU, A, register. rewrite (Hfirst auto AutoGenerated).
    destruct (registered reg collType fromVersion); cbn [snd].
    - exact HU.
    - by rewrite (register_held_slot _ _ _ _ _ _ _ _ _ UserDefined
                    Hvm Hidx Hlook Hins). }
  rewrite HU, HAU, HUA. cbn [fst snd].
  pose proof (registered_in_slot collType fromVersion cv vm' F idx tbl0
                user Hvm Hidx Hlook) as Hreg.
  do 6 (split; [done |]).
  split; [| split].
  - intros b w.
    by rewrite (evolveBuffers_registered
                  (mkSchemaEvolution vm' (F (setSlot tbl0 fromVersion user)))
                  collType fromVersion (mkMapIndex cv (N.of_nat idx))
                  user b w Hvm Hv Hreg).
  - intros Hfree. unfold A, register.
    rewrite (Hfirst auto AutoGenerated), Hfree. cbn [fst snd].
    split; [done |].
    exact (registered_in_slot collType fromVersion cv vm' F idx tbl0
             auto Hvm Hidx Hlook).
  - intros Hheld. unfold A, register. rewrite (Hfirst auto AutoGenerated).
    by destruct (registered reg collType fromVersion).
Qed.

Lemma C4_priority_decides_witness :
  let register :=
    registerEvolutionFunc (CollectionReadBuffers := list Z) (World := nat)
      "Track" 1%N 3%N in
  let A := register noOpSchemaEvolution AutoGenerated Scenario.track_registry in
  let AU := register (Scenario.counting 1) UserDefined (snd A) in
  let U := register (Scenario.counting 1) UserDefined Scenario.track_registry in
  let UA := register noOpSchemaEvolution AutoGenerated (snd U) in
  let held :=
    registerEvolutionFunc (CollectionReadBuffers := list Z) (World := nat)
      "Track" 2%N 3%N noOpSchemaEvolution AutoGenerated
      Scenario.track_registry in
  fst AU = Returns ()
  ∧ fst U = Returns () ∧ fst UA = Raises PriorityConflictError
  ∧ snd UA = snd U
  ∧ snd AU = snd UA
  ∧ registered (snd AU) "Track" 1%N = Some (Scenario.counting 1)
  ∧ (∀ b w, evolveBuffers (snd AU) b 1%N "Track" w
            = Scenario.counting 1 b 1%N w
            ∧ evolveBuffers (snd UA) b 1%N "Track" w
              = Scenario.counting 1 b 1%N w)
  ∧ fst A = Returns ()
  ∧ registered (snd A) "Track" 1%N = Some noOpSchemaEvolution
  ∧ held = (Raises PriorityConflictError, Scenario.track_registry).
Proof.
  assert (Hacc : accepts_type Scenario.track_registry "Track" 3%N).
  { split; [discriminate |].
    intros mi Hmi. vm_compute in Hmi. injection Hmi as <-.
    split; [reflexivity | right; vm_compute; lia]. }
  intros register A AU U UA held.
  pose proof (C4_priority_decides Scenario.track_registry
                "Track" 1%N 3%N noOpSchemaEvolution (Scenario.counting 1)
                Hacc) as Hfree.
  pose proof (C4_priority_decides Scenario.track_registry
                "Track" 2%N 3%N noOpSchemaEvolution (Scenario.counting 1)
                Hacc) as Hheld.
  cbv zeta in Hfree, Hheld.
  destruct Hfree as (H1 & H2 & H3 & H4 & H5 & H6 & H7 & H8 & _);
    [discriminate |].
  destruct Hheld as (_ & _ & _ & _ & _ & _ & _ & _ & H9); [discriminate |].
  destruct H8 as [H8 H8']; [reflexivity |].
  repeat (split; [assumption |]).
  apply H9. discriminate.
Defined.

(** * Further properties *)

(** ** Handles: temporaries, null handles, constructors *)

(** X1.  A temporary handle leaves no trace: copy-constructing a handle
    from [h] and destroying the copy gives back the heap as it was, and so
    does cloning [h] and destroying the clone.  The payload of [h] is live
    with a positive count. *)
Theorem X1_temporaries_leave_no_trace {D} (new_id : ObjectID)
    (hp : gmap addr (Obj D)) (h : Handle D) p o :
  m_obj h = Some p → hp !! p = Some o → 0 < refs o →
  (∃ g hp1, copy_ctor h hp = Returns (g, hp1) ∧ dtor g hp1 = Returns hp)
  ∧ (∃ c hp1, clone new_id h hp = Returns (c, hp1)
              ∧ hp1 ≠ hp ∧ dtor c hp1 = Returns hp).
Proof.
  intros Hh Hp Hpos. split.
  - exists (mkHandle (Some p)), (<[p := with_refs (refs o + 1) o]> hp).
    unfold copy_ctor, dtor. rewrite Hh. cbn.
    rewrite (acquire_live _ _ _ Hp). cbn. split; [done |].
    erewrite release_shared
      by (try apply lookup_insert_eq; rewrite refs_with_refs; lia).
    rewrite insert_insert_eq, refs_with_refs, with_refs_with_refs.
    replace (refs o + 1 - 1) with (refs o) by lia.
    by rewrite with_refs_id, insert_id.
  - pose proof (alloc_fresh hp) as Hq.
    exists (mkHandle (Some (alloc hp))),
      (<[alloc hp := with_refs 1 (Obj_copy new_id o)]> hp).
    unfold clone, ptr_ctor, dtor. rewrite Hh. cbn. rewrite Hp. cbn.
    erewrite acquire_live by apply lookup_insert_eq. cbn.
    rewrite insert_insert_eq. split; [done |]. split.
    + intros Heq. apply (f_equal (λ m, m !! alloc hp)) in Heq.
      by rewrite lookup_insert_eq, Hq in Heq.
    + erewrite release_last by (try apply lookup_insert_eq; done).
      by rewrite delete_insert_id.
Qed.

Lemma X1_temporaries_leave_no_trace_witness :
  (∃ g hp1, copy_ctor Scenario.b Scenario.hits = Returns (g, hp1)
            ∧ dtor g hp1 = Returns Scenario.hits)
  ∧ (∃ c hp1, clone (mkObjectID (-1) (-1)) Scenario.b Scenario.hits
                = Returns (c, hp1)
              ∧ hp1 ≠ Scenario.hits ∧ dtor c hp1 = Returns Scenario.hits).
Proof.
  apply (X1_temporaries_leave_no_trace (mkObjectID (-1) (-1)) Scenario.hits
           Scenario.b 2%positive Scenario.hitP);
    [reflexivity | reflexivity | cbn; lia].
Defined.

(** X2.  The destructor, [operator=] and the constructor from a pointer
    test [m_obj] against [nullptr]; the copy constructor, [clone()] and
    [getObjectID()] do not.  On an unavailable handle the former return
    and leave the heap alone, the latter dereference null.  Assigning an
    unavailable handle to an available one releases the payload and makes
    the handle unavailable. *)
Theorem X2_unavailable_handle {D} (new_id : ObjectID)
    (hp : gmap addr (Obj D)) (h other : Handle D) :
  isAvailable h = false →
  ptr_ctor None hp = Returns (h, hp)
  ∧ dtor h hp = Returns hp
  ∧ operator_assign h other hp = Returns (other, hp)
  ∧ copy_ctor h hp = Undefined
  ∧ clone new_id h hp = Undefined
  ∧ getObjectID h hp = Undefined
  ∧ ∀ p o, m_obj other = Some p → hp !! p = Some o →
      ∃ hp', operator_assign other h hp = Returns (h, hp')
             ∧ hp' !! p = (if decide (refs o = 1) then None
                           else Some (with_refs (refs o - 1) o)).
Proof.
  intros Hh. destruct h as [[q |]]; [done |]. clear Hh.
  unfold ptr_ctor, dtor, operator_assign, copy_ctor, clone, getObjectID.
  cbn. rewrite handle_eta. do 6 (split; [done |]).
  intros p o Hother Hp. rewrite Hother.
  destruct (decide (refs o = 1)) as [H1 | H1].
  - rewrite (release_last _ _ _ Hp H1). eexists. split; [done |].
    apply lookup_delete_eq.
  - rewrite (release_shared _ _ _ Hp H1). eexists. split; [done |].
    apply lookup_insert_eq.
Qed.

Lemma X2_unavailable_handle_witness :
  ptr_ctor None Scenario.hits = Returns (mkHandle None, Scenario.hits)
  ∧ dtor (mkHandle None) Scenario.hits = Returns Scenario.hits
  ∧ operator_assign (mkHandle None) Scenario.b Scenario.hits
    = Returns (Scenario.b, Scenario.hits)
  ∧ copy_ctor (mkHandle None) Scenario.hits = Undefined
  ∧ clone (mkObjectID 0 0) (mkHandle None) Scenario.hits = Undefined
  ∧ getObjectID (mkHandle None) Scenario.hits = Undefined
  ∧ ∀ p o, m_obj Scenario.b = Some p → Scenario.hits !! p = Some o →
      ∃ hp', operator_assign Scenario.b (mkHandle None) Scenario.hits
             = Returns (mkHandle None, hp')
             ∧ hp' !! p = (if decide (refs o = 1) then None
                           else Some (with_refs (refs o - 1) o)).
Proof.
  apply (X2_unavailable_handle (mkObjectID 0 0) Scenario.hits
           (mkHandle None) Scenario.b).
  reflexivity.
Defined.

Lemma modify_counts_positive {D} (f : D → D) (h : Handle D)
    (hp hp' : gmap addr (Obj D)) :
  counts_positive hp → modify f h hp = Returns hp' → counts_positive hp'.
Proof.
  intros Hpos. unfold modify.
  destruct (m_obj h) as [p |]; [cbn | done].
  destruct (hp !! p) as [o |] eqn:Hp; [cbn | done].
  intros [= <-] q oq. destruct (decide (p = q)) as [<- | Hne].
  - rewrite lookup_insert_eq. intros [= <-]. exact (Hpos p o Hp).
  - rewrite lookup_insert_ne by done. apply Hpos.
Qed.

Lemma handle_step_counts_positive {D} (hp hp' : gmap addr (Obj D)) :
  handle_step hp hp' → counts_positive hp → counts_positive hp'.
Proof.
  intros Hstep Hpos.
  destruct (handle_operations_counts_positive hp Hpos)
    as (Hcopy & Hassign & Hdtor & Hclone).
  destruct Hstep as [init h hp hp' Hinit Hop | other h hp hp' Hop
    | this other h hp hp' Hop | obj h hp hp' Hop | new_id this h hp hp' Hop
    | this hp hp' Hop | f this hp hp' Hop].
  - unfold default_ctor in Hop.
    erewrite acquire_live in Hop by apply lookup_insert_eq. cbn in Hop.
    injection Hop as _ <-. intros q oq. rewrite insert_insert_eq.
    destruct (decide (alloc hp = q)) as [<- | Hne].
    + rewrite lookup_insert_eq. intros [= <-]. rewrite refs_with_refs. lia.
    + rewrite lookup_insert_ne by done. apply Hpos.
  - by eapply Hcopy.
  - by eapply Hassign.
  - unfold ptr_ctor in Hop. destruct obj as [p |]; cbn in Hop.
    + destruct (acquire p hp) as [hp1 | |] eqn:Hacq; [| done | done].
      injection Hop as _ <-. by eapply acquire_counts_positive.
    + by injection Hop as _ <-.
  - by eapply Hclone.
  - by eapply Hdtor.
  - by eapply modify_counts_positive.
Qed.

(** X3.  Along every sequence of handle operations (constructors, copy,
    assignment, [clone()], member writes, destructor) that starts from a
    heap whose live payloads have positive counts, every live payload has
    a positive count: a payload whose count has come down to 0 is never
    left on the heap. *)
Theorem X3_live_payloads_are_counted {D} (hp hp' : gmap addr (Obj D)) :
  rtc handle_step hp hp' → counts_positive hp → counts_positive hp'.
Proof.
  induction 1 as [| hp hp1 hp' Hstep _ IH]; [done |].
  intros Hpos. apply IH. by eapply handle_step_counts_positive.
Qed.

Lemma X3_live_payloads_are_counted_witness :
  rtc handle_step Scenario.hits (delete 1%positive Scenario.hits)
  ∧ counts_positive (delete 1%positive Scenario.hits).
Proof.
  assert (Hsteps : rtc handle_step Scenario.hits
                     (delete 1%positive Scenario.hits)).
  { apply rtc_once.
    apply (step_operator_assign Scenario.a Scenario.b Scenario.b).
    reflexivity. }
  split; [exact Hsteps |].
  apply (X3_live_payloads_are_counted Scenario.hits); [exact Hsteps |].
  unfold Scenario.hits. intros p o Hp.
  apply lookup_insert_Some in Hp as [[_ <-] | [_ Hp]]; [cbn; lia |].
  apply lookup_singleton_Some in Hp as [_ <-]. cbn. lia.
Defined.

(** X4.  An assignment that returns gives the assigned-to handle the
    pointer of the right-hand side and changes no payload other than the
    one the assigned-to handle referenced before; in particular it leaves
    the payload of the right-hand side as it was whenever that is another
    payload. *)
Theorem X4_assignment_touches_old_payload_only {D}
    (hp hp' : gmap addr (Obj D)) (this other this' : Handle D) :
  operator_assign this other hp = Returns (this', hp') →
  this' = other
  ∧ ∀ r, m_obj this ≠ Some r → hp' !! r = hp !! r.
Proof.
  unfold operator_assign. rewrite handle_eta.
  destruct (m_obj this) as [q |]; cbn.
  - unfold release. destruct (hp !! q) as [oq |]; [cbn | done].
    case_decide; intros [= <- <-]; (split; [done |]); intros r Hr.
    + apply lookup_delete_ne. congruence.
    + apply lookup_insert_ne. congruence.
  - by intros [= <- <-].
Qed.

Lemma X4_assignment_touches_old_payload_only_witness :
  Scenario.b = Scenario.b
  ∧ ∀ r, m_obj Scenario.a ≠ Some r →
      delete 1%positive Scenario.hits !! r = Scenario.hits !! r.
Proof.
  apply (X4_assignment_touches_old_payload_only Scenario.hits
           (delete 1%positive Scenario.hits) Scenario.a Scenario.b Scenario.b).
  reflexivity.
Defined.

(** X5.  [ExampleHit(x, y, z, energy)] returns a handle to a payload at
    an address that was not live, with the identity of the
    default-constructed payload, its count plus one, and exactly the four
    values given: nothing of the default-constructed data is kept.  All
    other payloads are as before.  When the default-constructed payload
    starts with count 0, destroying the new handle gives back the heap as
    it was. *)
Theorem X5_value_constructor (init : Obj ExampleHitData)
    (x' y' z' energy' : double) (hp : gmap addr (Obj ExampleHitData)) :
  ∃ q,
    hp !! q = None
    ∧ ExampleHit_ctor init x' y' z' energy' hp
      = Returns (mkHandle (Some q),
                 <[q := mkObj (mkObjBase (id (base init)) (refs init + 1))
                          (mkExampleHitData x' y' z' energy')]> hp)
    ∧ (refs init = 0 →
       ∃ h hp', ExampleHit_ctor init x' y' z' energy' hp = Returns (h, hp')
                ∧ dtor h hp' = Returns hp).
Proof.
  pose proof (alloc_fresh hp) as Hq. exists (alloc hp).
  assert (Hctor : ExampleHit_ctor init x' y' z' energy' hp
      = Returns (mkHandle (Some (alloc hp)),
                 <[alloc hp := mkObj (mkObjBase (id (base init)) (refs init + 1))
                                 (mkExampleHitData x' y' z' energy')]> hp)).
  { unfold ExampleHit_ctor, default_ctor.
    erewrite acquire_live by apply lookup_insert_eq. cbn.
    unfold modify. cbn.
    rewrite !lookup_insert_eq. cbn. rewrite !lookup_insert_eq. cbn.
    rewrite !lookup_insert_eq. cbn. rewrite !lookup_insert_eq. cbn.
    by rewrite !insert_insert_eq. }
  split; [done |]. split; [done |].
  intros Hzero. eexists _, _. split; [exact Hctor |].
  unfold dtor. cbn.
  erewrite release_last by (try apply lookup_insert_eq; cbn; lia).
  by rewrite delete_insert_id.
Qed.

(** ** Relation ranges: reading and extending *)


(** X6.  [Refs_begin()]/[Refs_end()] on a live record with stored range
    [[first, last)] over its Refs vector [l]: when the range lies within
    the vector and [last] is at least 1, the loop from [Refs_begin()] to
    [Refs_end()] reads exactly the elements of [l] from index [first] to
    [last], none when [first = last]; when [last] is 0, as for a record
    nothing was added to, [Refs_end()] and with it the loop are
    undefined. *)
Theorem X6_Refs_range {ExampleCluster} (this : ExampleReferencingType)
    (st : Store ExampleCluster) p o v l :
  m_obj this = Some p → objs st !! p = Some o →
  m_Refs (members o) = Some v → vecs_Refs st !! v = Some l →
  (1 ≤ data_Refs_end (data (members o)) ≤ Z.of_nat (length l) →
   0 ≤ data_Refs_begin (data (members o)) ≤ data_Refs_end (data (members o)) →
   ∀ fuel : nat,
     (Z.to_nat (data_Refs_end (data (members o))
                - data_Refs_begin (data (members o))) ≤ fuel)%nat →
     Refs fuel this st
     = Some (Returns
               (take (Z.to_nat (data_Refs_end (data (members o))
                                - data_Refs_begin (data (members o))))
                  (drop (Z.to_nat (data_Refs_begin (data (members o)))) l))))
  ∧ (data_Refs_end (data (members o)) = 0 →
     Refs_end this st = Undefined
     ∧ ∀ fuel : nat, Refs fuel this st = Some Undefined).
Proof.
  intros Hh Hp Hv Hl. split.
  - intros Hlast Hfirst fuel Hfuel. by eapply Refs_reads_range.
  - intros Hzero.
    assert (Hend : Refs_end this st = Undefined).
    { rewrite (Refs_end_live _ _ _ _ _ _ Hh Hp Hv Hl), Hzero.
      by rewrite advance_begin_outside by lia. }
    split; [done |]. intros fuel. unfold Refs. rewrite Hend.
    destruct (Refs_begin this st) as [it | err |] eqn:Hbegin; cbn; try done.
    by apply Refs_begin_never_raises in Hbegin.
Qed.

Lemma X6_Refs_range_witness :
  Refs 1 Scenario.r1 ScenarioX.tail_ranges = Some (Returns [Scenario.r0])
  ∧ Refs_end Scenario.r0 ScenarioX.tail_ranges = Undefined
  ∧ Refs 1 Scenario.r0 ScenarioX.tail_ranges = Some Undefined.
Proof.
  split.
  - destruct (X6_Refs_range Scenario.r1 ScenarioX.tail_ranges 2%positive
                (mkObj (mkObjBase (mkObjectID 1 3) 1)
                   (mkExampleReferencingTypeMembers
                      (mkExampleReferencingTypeData 2 2 0 1)
                      (Some 10%positive) (Some 11%positive)))
                11%positive [Scenario.r0]) as [Hin _];
      [reflexivity | reflexivity | reflexivity | reflexivity |].
    apply (Hin ltac:(cbn; lia) ltac:(cbn; lia) 1%nat). cbn. lia.
  - destruct (X6_Refs_range Scenario.r0 ScenarioX.tail_ranges 1%positive
                (mkObj (mkObjBase (mkObjectID 0 3) 2)
                   (mkExampleReferencingTypeMembers
                      (mkExampleReferencingTypeData 0 2 0 0)
                      (Some 10%positive) (Some 11%positive)))
                11%positive [Scenario.r0]) as [_ Hzero];
      [reflexivity | reflexivity | reflexivity | reflexivity |].
    destruct Hzero as [Hend Hloop]; [reflexivity |].
    split; [exact Hend | apply Hloop].
Defined.

(** X7.  [addClusters] on the record extended last.  When the stored
    range [[first, last)] of a live record ends where its vector ends
    ([last] is the vector's size), [addClusters(c)] returns, and
    afterwards the loop from [Clusters_begin()] to [Clusters_end()] reads
    the elements the range covered before followed by [c]. *)
Theorem X7_addClusters_at_the_end {ExampleCluster}
    (this : ExampleReferencingType) (c : ExampleCluster)
    (st : Store ExampleCluster) p o v l :
  m_obj this = Some p → objs st !! p = Some o →
  m_Clusters (members o) = Some v → vecs_Clusters st !! v = Some l →
  0 ≤ data_Clusters_begin (data (members o)) →
  data_Clusters_begin (data (members o))
    ≤ data_Clusters_end (data (members o)) →
  data_Clusters_end (data (members o)) = Z.of_nat (length l) →
  ∃ st',
    addClusters this c st = Returns st'
    ∧ ∀ fuel : nat,
        (length l + 1 ≤ fuel)%nat →
        Clusters fuel this st'
        = Some (Returns
                  (drop (Z.to_nat (data_Clusters_begin (data (members o)))) l
                   ++ [c])).
Proof.
  intros Hh Hp Hv Hl Hfirst Hle Hlast.
  rewrite (addClusters_appends _ c _ _ _ _ _ Hh Hp Hv Hl).
  eexists. split; [reflexivity |]. intros fuel Hfuel.
  rewrite (Clusters_reads_range this _ p
             (mkObj (base o) (Clusters_end_incr (members o))) v (l ++ [c]));
    cbn; rewrite ?lookup_insert_eq, ?length_app; cbn; try done; try lia.
  f_equal. f_equal.
  rewrite drop_app_le by lia.
  apply take_ge. rewrite length_app, length_drop. cbn. lia.
Qed.

Lemma X7_addClusters_at_the_end_witness :
  ∃ st',
    addClusters Scenario.r0 Scenario.cc ScenarioX.tail_ranges = Returns st'
    ∧ ∀ fuel : nat,
        (length [Scenario.ca; Scenario.cb] + 1 ≤ fuel)%nat →
        Clusters fuel Scenario.r0 st'
        = Some (Returns
                  (drop (Z.to_nat 0) [Scenario.ca; Scenario.cb]
                   ++ [Scenario.cc])).
Proof.
  apply (X7_addClusters_at_the_end Scenario.r0 Scenario.cc
           ScenarioX.tail_ranges 1%positive
           (mkObj (mkObjBase (mkObjectID 0 3) 2)
              (mkExampleReferencingTypeMembers
                 (mkExampleReferencingTypeData 0 2 0 0)
                 (Some 10%positive) (Some 11%positive)))
           10%positive [Scenario.ca; Scenario.cb]);
    [reflexivity | reflexivity | reflexivity | reflexivity
     | cbn; lia | cbn; lia | reflexivity].
Defined.

(** X8.  The Refs vector shares ownership of what it refers to.
    [addRefs(component)] on a live record stores a handle to the payload
    of [component] at the end of the record's Refs vector and raises that
    payload's count by one, also when [component] is the record itself.
    When the caller's [component] handle is destroyed afterwards, the
    payload is still live, with the count it had before. *)
Theorem X8_addRefs_shares_ownership {ExampleCluster}
    (this component : ExampleReferencingType) (st : Store ExampleCluster)
    p o v l pc oc :
  m_obj this = Some p → objs st !! p = Some o →
  m_Refs (members o) = Some v → vecs_Refs st !! v = Some l →
  m_obj component = Some pc → objs st !! pc = Some oc → 0 < refs oc →
  ∃ st' hp'',
    addRefs this component st = Returns st'
    ∧ vecs_Refs st' !! v = Some (l ++ [mkHandle (Some pc)])
    ∧ refs <$> objs st' !! pc = Some (refs oc + 1)
    ∧ dtor component (objs st') = Returns hp''
    ∧ refs <$> hp'' !! pc = Some (refs oc).
Proof.
  intros Hh Hp Hv Hl Hc Hpc Hpos.
  destruct (addRefs_appends this component st p o v l pc oc
              Hh Hp Hv Hl Hc Hpc) as (o' & Ho' & Hadd).
  rewrite Hadd. clear Hadd.
  set (objs1 := <[pc := with_refs (refs oc + 1) oc]> (objs st)) in *.
  set (objs2 := <[p := mkObj (base o') (Refs_end_incr (members o'))]> objs1).
  assert (∃ oc', objs2 !! pc = Some oc' ∧ refs oc' = refs oc + 1)
    as (oc' & Hoc' & Hrefs).
  { unfold objs2. destruct (decide (p = pc)) as [-> | Hne].
    - rewrite lookup_insert_eq. eexists. split; [done |].
      unfold objs1 in Ho'. rewrite lookup_insert_eq in Ho'.
      by injection Ho' as <-.
    - rewrite lookup_insert_ne by done. unfold objs1.
      rewrite lookup_insert_eq. by eexists. }
  exists (mkStore objs2 (vecs_Clusters st)
            (<[v := l ++ [mkHandle (Some pc)]]> (vecs_Refs st))),
    (<[pc := with_refs (refs oc' - 1) oc']> objs2).
  cbn. split; [done |]. split; [apply lookup_insert_eq |].
  split; [by rewrite Hoc'; cbn; rewrite Hrefs |].
  unfold dtor. rewrite Hc.
  rewrite (release_shared _ _ _ Hoc') by lia.
  split; [done |]. rewrite lookup_insert_eq. cbn.
  f_equal. lia.
Qed.

Lemma X8_addRefs_shares_ownership_witness :
  ∃ st' hp'',
    addRefs Scenario.r0 Scenario.r0 ScenarioX.tail_ranges = Returns st'
    ∧ vecs_Refs st' !! 11%positive
      = Some ([Scenario.r0] ++ [mkHandle (Some 1%positive)])
    ∧ refs <$> objs st' !! 1%positive = Some (2 + 1)
    ∧ dtor Scenario.r0 (objs st') = Returns hp''
    ∧ refs <$> hp'' !! 1%positive = Some 2.
Proof.
  apply (X8_addRefs_shares_ownership Scenario.r0 Scenario.r0
           ScenarioX.tail_ranges 1%positive
           (mkObj (mkObjBase (mkObjectID 0 3) 2)
              (mkExampleReferencingTypeMembers
                 (mkExampleReferencingTypeData 0 2 0 0)
                 (Some 10%positive) (Some 11%positive)))
           11%positive [Scenario.r0] 1%positive
           (mkObj (mkObjBase (mkObjectID 0 3) 2)
              (mkExampleReferencingTypeMembers
                 (mkExampleReferencingTypeData 0 2 0 0)
                 (Some 10%positive) (Some 11%positive))));
    [reflexivity | reflexivity | reflexivity | reflexivity
     | reflexivity | reflexivity | cbn; lia].
Defined.

Lemma addClusters_returns_inv {ExampleCluster}
    (this : ExampleReferencingType) (c : ExampleCluster)
    (st st' : Store ExampleCluster) :
  addClusters this c st = Returns st' →
  ∃ p o v l,
    m_obj this = Some p ∧ objs st !! p = Some o
    ∧ m_Clusters (members o) = Some v ∧ vecs_Clusters st !! v = Some l
    ∧ st' = mkStore
              (<[p := mkObj (base o) (Clusters_end_incr (members o))]>
                 (objs st))
              (<[v := l ++ [c]]> (vecs_Clusters st)) (vecs_Refs st).
Proof.
  intros Hadd.
  destruct (m_obj this) as [p |] eqn:Hh;
    [| by unfold addClusters in Hadd; rewrite Hh in Hadd].
  destruct (objs st !! p) as [o |] eqn:Hp;
    [| by unfold addClusters in Hadd; rewrite Hh in Hadd; cbn in Hadd;
          rewrite Hp in Hadd].
  destruct (m_Clusters (members o)) as [v |] eqn:Hv;
    [| by unfold addClusters in Hadd; rewrite Hh in Hadd; cbn in Hadd;
          rewrite Hp in Hadd; cbn in Hadd; rewrite Hv in Hadd].
  destruct (vecs_Clusters st !! v) as [l |] eqn:Hl;
    [| by unfold addClusters in Hadd; rewrite Hh in Hadd; cbn in Hadd;
          rewrite Hp in Hadd; cbn in Hadd; rewrite Hv in Hadd; cbn in Hadd;
          rewrite Hl in Hadd].
  rewrite (addClusters_appends _ c _ _ _ _ _ Hh Hp Hv Hl) in Hadd.
  injection Hadd as <-. by exists p, o, v, l.
Qed.

(** X9.  The relation vector only grows.  After [addClusters] on one
    record, every other record whose stored range lay within its vector
    (and ends at 1 or later) reads the same elements as before, whether
    or not it shares the vector with the record extended. *)
Theorem X9_addClusters_keeps_other_ranges {ExampleCluster}
    (this other : ExampleReferencingType) (c : ExampleCluster)
    (st st' : Store ExampleCluster) q oq v l (fuel : nat) :
  addClusters this c st = Returns st' →
  m_obj other = Some q → m_obj this ≠ Some q → objs st !! q = Some oq →
  m_Clusters (members oq) = Some v → vecs_Clusters st !! v = Some l →
  1 ≤ data_Clusters_end (data (members oq)) ≤ Z.of_nat (length l) →
  0 ≤ data_Clusters_begin (data (members oq))
    ≤ data_Clusters_end (data (members oq)) →
  (Z.to_nat (data_Clusters_end (data (members oq))
             - data_Clusters_begin (data (members oq))) ≤ fuel)%nat →
  Clusters fuel other st' = Clusters fuel other st
  ∧ Clusters fuel other st
    = Some (Returns
              (take (Z.to_nat (data_Clusters_end (data (members oq))
                               - data_Clusters_begin (data (members oq))))
                 (drop (Z.to_nat (data_Clusters_begin (data (members oq))))
                    l))).
Proof.
  intros Hadd Hother Hne Hq Hv Hl Hlast Hfirst Hfuel.
  destruct (addClusters_returns_inv _ _ _ _ Hadd)
    as (p & o & v0 & l0 & Hh & Hp & Hv0 & Hl0 & ->).
  assert (Hpq : p ≠ q) by congruence.
  rewrite (Clusters_reads_range other st q oq v l fuel) by done.
  split; [| done].
  destruct (decide (v0 = v)) as [-> | Hvne].
  - assert (l0 = l) as -> by congruence.
    rewrite (Clusters_reads_range other _ q oq v (l ++ [c]) fuel);
      cbn; rewrite ?lookup_insert_eq, ?length_app; cbn; try done; try lia.
    + f_equal. f_equal. rewrite drop_app_le by lia.
      apply take_app_le. rewrite length_drop. lia.
    + by rewrite lookup_insert_ne.
  - rewrite (Clusters_reads_range other _ q oq v l fuel);
      cbn; try done.
    + by rewrite lookup_insert_ne.
    + by rewrite lookup_insert_ne.
Qed.

Lemma X9_addClusters_keeps_other_ranges_witness :
  ∃ st',
    addClusters Scenario.r1 Scenario.ca Scenario.good_ranges = Returns st'
    ∧ Clusters 2 Scenario.r0 st' = Clusters 2 Scenario.r0 Scenario.good_ranges
    ∧ Clusters 2 Scenario.r0 Scenario.good_ranges
      = Some (Returns
                (take (Z.to_nat (2 - 0))
                   (drop (Z.to_nat 0) [Scenario.ca; Scenario.cb; Scenario.cc]))).
Proof.
  eexists. split; [reflexivity |].
  apply (X9_addClusters_keeps_other_ranges Scenario.r1 Scenario.r0
           Scenario.ca Scenario.good_ranges _ 1%positive
           (Scenario.record 0 0 2) 10%positive
           [Scenario.ca; Scenario.cb; Scenario.cc] 2%nat);
    [reflexivity | reflexivity | discriminate | reflexivity | reflexivity
     | reflexivity | cbn; lia | cbn; lia | cbn; lia].
Defined.

(** ** HDF5 output: where the rows of an event go *)

Lemma rows_cons info infos :
  H5.rows (info :: infos) = Z.of_nat (length info) + H5.rows infos.
Proof. unfold H5.rows. cbn. lia. Qed.

Lemma rows_nonneg infos : 0 ≤ H5.rows infos.
Proof. unfold H5.rows. lia. Qed.

(** Writing on after the first event: the dataset has [size0 this] rows. *)
Lemma writeEvents_later infos :
  ∀ this,
    H5.flag this ≠ 0 → 0 ≤ H5.size0 this →
    H5.size0 this + H5.rows infos < 2 ^ 64 →
    (∀ k info, infos !! k = Some info →
       (H5.writeEvents infos this).1 !! k
       = Some [H5.extend (H5.size0 this + H5.rows (take k infos)
                          + Z.of_nat (length info));
               H5.selectHyperslab (Z.of_nat (length info))
                 (H5.size0 this + H5.rows (take k infos));
               H5.write info (Z.of_nat (length info))])
    ∧ H5.flag (H5.writeEvents infos this).2 = H5.flag this
    ∧ H5.size0 (H5.writeEvents infos this).2
      = H5.size0 this + H5.rows infos
    ∧ (∀ info, last infos = Some info →
         H5.offset0 (H5.writeEvents infos this).2
         = H5.size0 this + H5.rows infos - Z.of_nat (length info)).
Proof.
  induction infos as [| info0 rest IH]; intros this Hflag Hsize Hbound.
  - cbn. split; [done |]. split; [done |]. split; [| done].
    unfold H5.rows. cbn. lia.
  - rewrite rows_cons in Hbound. pose proof (rows_nonneg rest) as Hrest.
    cbn [H5.writeEvents]. unfold H5.writeH5.
    rewrite decide_False by done.
    assert (Hn : H5.hsize_t (Z.of_nat (length info0))
                 = Z.of_nat (length info0))
      by (unfold H5.hsize_t; apply Z.mod_small; lia).
    rewrite Hn.
    assert (Hs : H5.hsize_t (H5.size0 this + Z.of_nat (length info0))
                 = H5.size0 this + Z.of_nat (length info0))
      by (unfold H5.hsize_t; apply Z.mod_small; lia).
    rewrite Hs.
    set (this' := H5.mkH5_EventInfoData (H5.flag this)
                    (H5.size0 this + Z.of_nat (length info0))
                    (H5.size0 this)).
    destruct (IH this') as (Hcalls & Hflag' & Hsize' & Hoff');
      [done | cbn; lia | cbn; lia |].
    destruct (H5.writeEvents rest this') as [more this''] eqn:Hrun.
    cbn [fst snd] in *.
    split; [| split; [done | split]].
    + intros [| k] info Hk.
      * injection Hk as ->. cbn. unfold H5.rows. cbn.
        by rewrite !Z.add_0_r.
      * cbn in Hk.
        assert (Hl : ∀ c : list H5.Call, (c :: more) !! S k = more !! k)
          by done.
        rewrite Hl, (Hcalls k info Hk).
        cbn [take]. rewrite rows_cons. cbn. by rewrite ?Z.add_assoc.
    + rewrite Hsize', rows_cons. cbn. lia.
    + intros info Hlast. rewrite rows_cons.
      destruct rest as [| info1 rest'].
      * cbn in Hlast. injection Hlast as ->. cbn in Hrun.
        injection Hrun as <- <-. cbn. unfold H5.rows. cbn. lia.
      * rewrite (Hoff' info) by (by rewrite last_cons_cons in Hlast).
        cbn. lia.
Qed.

(** X11.  Successive [writeH5] calls append to the dataset.  Starting
    from a freshly constructed [H5_EventInfoData] ([flag] is 0, [size] and
    [offset] hold anything), with fewer than 2^64 rows in all: the first
    collection creates the dataset and is written to the hyperslab at row
    0; collection [k] is written to the hyperslab that starts at the
    number of rows of the collections before it, after the dataset has
    been extended to end exactly where that hyperslab ends.  Afterwards
    [flag] is 1, [size] is the total number of rows and [offset] is where
    the last collection starts. *)
Theorem X11_writeH5_appends (infos : list H5.EventInfoCollection)
    (this : H5.H5_EventInfoData) :
  H5.flag this = 0 → H5.rows infos < 2 ^ 64 →
  (∀ (k : nat) info, infos !! k = Some info →
     (H5.writeEvents infos this).1 !! k
     = Some (if decide (k = 0%nat)
             then [H5.createDataSet (Z.of_nat (length info));
                   H5.selectHyperslab (Z.of_nat (length info)) 0;
                   H5.extend (Z.of_nat (length info));
                   H5.write info (Z.of_nat (length info))]
             else [H5.extend (H5.rows (take k infos)
                              + Z.of_nat (length info));
                   H5.selectHyperslab (Z.of_nat (length info))
                     (H5.rows (take k infos));
                   H5.write info (Z.of_nat (length info))]))
  ∧ (∀ info, last infos = Some info →
       (H5.writeEvents infos this).2
       = H5.mkH5_EventInfoData 1 (H5.rows infos)
           (H5.rows infos - Z.of_nat (length info))).
Proof.
  intros Hflag Hbound.
  destruct infos as [| info0 rest].
  - split; [intros k info [=] | intros info [=]].
  - rewrite rows_cons in Hbound. pose proof (rows_nonneg rest) as Hrest.
    cbn [H5.writeEvents]. unfold H5.writeH5.
    rewrite decide_True by done.
    assert (Hn : H5.hsize_t (Z.of_nat (length info0))
                 = Z.of_nat (length info0))
      by (unfold H5.hsize_t; apply Z.mod_small; lia).
    rewrite Hn.
    set (this' := H5.mkH5_EventInfoData 1 (Z.of_nat (length info0)) 0).
    destruct (writeEvents_later rest this')
      as (Hcalls & Hflag' & Hsize' & Hoff'); [done | cbn; lia | cbn; lia |].
    destruct (H5.writeEvents rest this') as [more this''] eqn:Hrun.
    cbn [fst snd] in *. split.
    + intros [| k] info Hk.
      * by injection Hk as ->.
      * cbn in Hk.
        assert (Hl : ∀ c : list H5.Call, (c :: more) !! S k = more !! k)
          by done.
        rewrite Hl, (Hcalls k info Hk).
        rewrite decide_False by done.
        cbn [take]. rewrite rows_cons. cbn. by rewrite ?Z.add_assoc.
    + intros info Hlast. rewrite rows_cons.
      destruct rest as [| info1 rest'].
      * cbn in Hlast. injection Hlast as ->. cbn in Hrun.
        injection Hrun as <- <-. unfold H5.rows. cbn. f_equal; lia.
      * specialize (Hoff' info). rewrite last_cons_cons in Hlast.
        specialize (Hoff' Hlast).
        destruct this'' as [fl sz off]. cbn in *. f_equal; lia.
Qed.

(** ** HDF5 output: one dataset per event *)







Lemma X11_writeH5_appends_witness :
  (∀ (k : nat) info, ScenarioH5.events !! k = Some info →
     (H5.writeEvents ScenarioH5.events ScenarioH5.fresh).1 !! k
     = Some (if decide (k = 0%nat)
             then [H5.createDataSet (Z.of_nat (length info));
                   H5.selectHyperslab (Z.of_nat (length info)) 0;
                   H5.extend (Z.of_nat (length info));
                   H5.write info (Z.of_nat (length info))]
             else [H5.extend (H5.rows (take k ScenarioH5.events)
                              + Z.of_nat (length info));
                   H5.selectHyperslab (Z.of_nat (length info))
                     (H5.rows (take k ScenarioH5.events));
                   H5.write info (Z.of_nat (length info))]))
  ∧ (∀ info, last ScenarioH5.events = Some info →
       (H5.writeEvents ScenarioH5.events ScenarioH5.fresh).2
       = H5.mkH5_EventInfoData 1 (H5.rows ScenarioH5.events)
           (H5.rows ScenarioH5.events - Z.of_nat (length info))).
Proof.
  apply (X11_writeH5_appends ScenarioH5.events ScenarioH5.fresh);
    reflexivity.
Defined.


Example writeEvents_three_events :
  (H5Events.writeEvents ScenarioH5.events ScenarioH5.empty_file
     (H5Events.mkH5EventInfoCollection 0)).1.2
  = H5Events.mkH5File {[ "0"; "2" ]}
      {[ "0/EventInfo" := [H5.mkEventInfoData 0];
         "2/EventInfo" := [H5.mkEventInfoData 2; H5.mkEventInfoData 3] ]}.
Proof. vm_compute. reflexivity. Qed.

(** ** Reading a reversed range *)

(** The loop started after its end position never meets it: it runs to
    the end of the vector and reads past it. *)
Lemma for_range_past_the_end {E} (l : list E) v (last : Z) (d : nat) :
  ∀ (a fuel : nat),
    (a + d = length l)%nat → last < Z.of_nat a → (d < fuel)%nat →
    for_range fuel l (mkIter v (Z.of_nat a)) (mkIter v last)
    = Some Undefined.
Proof.
  induction d as [| d IH]; intros a fuel Hlen Hlast Hfuel;
    (destruct fuel as [| fuel]; [lia |]); cbn;
    rewrite decide_False by (intros [= Heq]; lia).
  - unfold star. cbn. rewrite decide_True by lia.
    rewrite Nat2Z.id, lookup_ge_None_2 by lia. done.
  - destruct (lookup_lt_is_Some_2 l a) as [e He]; [lia |].
    unfold star. cbn. rewrite decide_True by lia.
    rewrite Nat2Z.id, He. cbn.
    rewrite incr_inside by lia.
    replace (Z.of_nat a + 1) with (Z.of_nat (S a)) by lia.
    by rewrite IH by lia.
Qed.

(** X13.  A reversed range is read past the end of the vector.  For a
    live record whose stored range lies within its vector but has
    [begin > end] (with [end] at least 1), [Clusters_begin()] and
    [Clusters_end()] both return iterators, and the loop from the one to
    the other, which stops only when the two are equal, reads every
    element from [begin] to the end of the vector and then dereferences
    the end iterator: undefined behaviour, no error. *)
Theorem X13_reversed_range_runs_off {ExampleCluster}
    (this : ExampleReferencingType) (st : Store ExampleCluster) p o v l
    (fuel : nat) :
  m_obj this = Some p → objs st !! p = Some o →
  m_Clusters (members o) = Some v → vecs_Clusters st !! v = Some l →
  1 ≤ data_Clusters_end (data (members o)) →
  data_Clusters_end (data (members o))
    < data_Clusters_begin (data (members o)) →
  data_Clusters_begin (data (members o)) ≤ Z.of_nat (length l) →
  (length l < fuel)%nat →
  Clusters_begin this st
    = Returns (mkIter v (data_Clusters_begin (data (members o))))
  ∧ Clusters_end this st
    = Returns (mkIter v (data_Clusters_end (data (members o))))
  ∧ Clusters fuel this st = Some Undefined.
Proof.
  intros Hh Hp Hv Hl Hlast Hrev Hfirst Hfuel.
  set (first := data_Clusters_begin (data (members o))) in *.
  set (last := data_Clusters_end (data (members o))) in *.
  assert (Hbegin : Clusters_begin this st = Returns (mkIter v first)).
  { rewrite (Clusters_begin_live _ _ _ _ _ _ Hh Hp Hv Hl).
    apply advance_begin_inside. lia. }
  assert (Hend : Clusters_end this st = Returns (mkIter v last)).
  { rewrite (Clusters_end_live _ _ _ _ _ _ Hh Hp Hv Hl). fold last.
    rewrite advance_begin_inside by lia. cbn.
    rewrite incr_inside by lia. do 2 f_equal. lia. }
  split; [done |]. split; [done |].
  unfold Clusters. rewrite Hbegin, Hend. cbn.
  rewrite Hh. cbn. rewrite Hp. cbn. rewrite Hv. cbn. rewrite Hl. cbn.
  pose proof (for_range_past_the_end l v last
                (length l - Z.to_nat first) (Z.to_nat first) fuel) as Hloop.
  replace (Z.of_nat (Z.to_nat first)) with first in Hloop by lia.
  apply Hloop; lia.
Qed.

Lemma X13_reversed_range_runs_off_witness :
  Clusters_begin Scenario.r1 ScenarioX.reversed = Returns (mkIter 10%positive 2)
  ∧ Clusters_end Scenario.r1 ScenarioX.reversed
    = Returns (mkIter 10%positive 1)
  ∧ Clusters 3 Scenario.r1 ScenarioX.reversed = Some Undefined.
Proof.
  apply (X13_reversed_range_runs_off Scenario.r1 ScenarioX.reversed
           2%positive (Scenario.record 1 2 1) 10%positive
           [Scenario.ca; Scenario.cb] 3%nat);
    [reflexivity | reflexivity | reflexivity | reflexivity
     | cbn; lia | cbn; lia | cbn; lia | cbn; lia].
Defined.
